(** * Propositional formulas: syntax, parsing, evaluation, model
      enumeration and DNF synthesis

    A shallow embedding of [propositions/syntax.py] and
    [propositions/semantics.py].

    Conventions of the embedding.
    - Python text is modelled by [string]; the characters are ASCII, and
      [str.isdigit] is the test for the decimal digits ['0'..'9'].
    - A Python call that can raise is a computation in the [result] monad:
      [Ok v] is a normal return of [v], [Raise e] an uncaught exception.
    - A [dict] is an association list in insertion order; storing under a key
      that is already present keeps the key's position (as Python does).
    - A [set] of names is a list read up to membership; only [issubset] ever
      observes it.
    - The interpreter's recursion limit is not modelled. *)

From Stdlib Require Import String Ascii List Bool Arith Lia.
Import ListNotations.
Local Open Scope string_scope.
Local Open Scope list_scope.

(** ** Exceptions and the result monad *)

Inductive exn : Type :=
| IndexError      (* [s[0]] or [l[i]] out of range *)
| AssertionError  (* a failed [assert] *)
| AttributeError  (* [self.first] / [self.second] on a node without it *)
| OutOfFuel.      (* the recursion bound of the embedding, not a Python error *)

Inductive result (A : Type) : Type :=
| Ok (a : A)
| Raise (e : exn).

Arguments Ok {A} a.
Arguments Raise {A} e.

Definition bind {A B : Type} (r : result A) (k : A -> result B) : result B :=
  match r with
  | Ok a => k a
  | Raise e => Raise e
  end.

Notation "x <- e ;; k" := (bind e (fun x => k))
  (at level 61, e at next level, right associativity).

(** [assert b] *)
Definition assert (b : bool) : result unit :=
  if b then Ok tt else Raise AssertionError.

(** A Python value that is a [bool] or [None]. *)
Inductive pyval : Type :=
| PyBool (b : bool)
| PyNone.

(** Truthiness, as [if v:] and [not v] read it. *)
Definition truthy (v : pyval) : bool :=
  match v with
  | PyBool b => b
  | PyNone => false
  end.

(** ** Token classifiers (syntax.py, lines 16-68) *)

Definition isdigit_char (c : ascii) : bool :=
  (("0" <=? c) && (c <=? "9"))%char.

Fixpoint all_digits (s : string) : bool :=
  match s with
  | EmptyString => true
  | String c s' => isdigit_char c && all_digits s'
  end.

(** [str.isdigit]: every character is a digit and there is at least one. *)
Definition isdigit (s : string) : bool :=
  match s with
  | EmptyString => false
  | String _ _ => all_digits s
  end.

(** [string[0] >= 'p' and string[0] <= 'z' and
     (len(string) == 1 or string[1:].isdigit())]; [string[0]] raises on the
    empty string. *)
Definition is_variable (s : string) : result bool :=
  match s with
  | EmptyString => Raise IndexError
  | String c rest =>
      Ok ((("p" <=? c) && (c <=? "z"))%char
          && (Nat.eqb (String.length s) 1 || isdigit rest))
  end.

Definition is_constant (s : string) : bool :=
  (s =? "T") || (s =? "F").

Definition is_unary (s : string) : bool :=
  s =? "~".

Definition is_binary (s : string) : bool :=
  (s =? "&") || (s =? "|") || (s =? "->").

(** ** The formula tree (syntax.py, lines 77-199) *)

(** A [Formula] object carries [root] alone, [root] and [first], or [root],
    [first] and [second]: the three branches of [__init__]. *)
Inductive Formula : Type :=
| Atom (root : string)
| Unary (root : string) (first : Formula)
| Binary (root : string) (first second : Formula).

Definition root (f : Formula) : string :=
  match f with
  | Atom r | Unary r _ | Binary r _ _ => r
  end.

(** [Formula.__init__], with its assertions. *)
Definition Formula_init (r : string) (first second : option Formula)
  : result Formula :=
  v <- is_variable r ;;
  if v || is_constant r then
    match first, second with
    | None, None => Ok (Atom r)
    | _, _ => Raise AssertionError
    end
  else if is_unary r then
    match first, second with
    | Some f, None => Ok (Unary r f)
    | _, _ => Raise AssertionError
    end
  else
    _ <- assert (is_binary r) ;;
    match first, second with
    | Some f, Some g => Ok (Binary r f g)
    | _, _ => Raise AssertionError
    end.

(** The dispatch on the root that [__repr__], [variables] and [operators]
    share: variable or constant, else unary, else binary. *)
Definition by_root {A : Type} (r : string)
  (leaf : result A) (unary : result A) (binary : result A) : result A :=
  v <- is_variable r ;;
  if v || is_constant r then leaf
  else if is_unary r then unary
  else binary.

(** [Formula.__repr__] *)
Fixpoint repr (f : Formula) : result string :=
  match f with
  | Atom r =>
      by_root r (Ok r) (Raise AttributeError) (Raise AttributeError)
  | Unary r g =>
      by_root r (Ok r)
        (s <- repr g ;; Ok (r ++ s)%string)
        (Raise AttributeError)
  | Binary r g h =>
      by_root r (Ok r)
        (s <- repr g ;; Ok (r ++ s)%string)
        (s1 <- repr g ;; s2 <- repr h ;; Ok ("(" ++ s1 ++ r ++ s2 ++ ")")%string)
  end.

(** [Formula.__eq__] on two formulas: equal string representations. *)
Definition Formula_eq (f g : Formula) : result bool :=
  s1 <- repr f ;; s2 <- repr g ;; Ok (s1 =? s2).

(** [Formula.variables] *)
Fixpoint Formula_variables (f : Formula) : result (list string) :=
  let r := root f in
  v <- is_variable r ;;
  if v then Ok [r]
  else if is_constant r then Ok []
  else if is_unary r then
    match f with
    | Atom _ => Raise AttributeError
    | Unary _ g | Binary _ g _ => Formula_variables g
    end
  else
    match f with
    | Binary _ g h =>
        s1 <- Formula_variables g ;; s2 <- Formula_variables h ;; Ok (s1 ++ s2)
    | Unary _ g => _ <- Formula_variables g ;; Raise AttributeError
    | Atom _ => Raise AttributeError
    end.

(** [Formula.operators] *)
Fixpoint Formula_operators (f : Formula) : result (list string) :=
  let r := root f in
  v <- is_variable r ;;
  if v then Ok []
  else if is_constant r then Ok [r]
  else if is_unary r then
    match f with
    | Atom _ => Raise AttributeError
    | Unary _ g | Binary _ g _ => s <- Formula_operators g ;; Ok ([r] ++ s)
    end
  else
    match f with
    | Binary _ g h =>
        s1 <- Formula_operators g ;; s2 <- Formula_operators h ;;
        Ok ([r] ++ (s1 ++ s2))
    | Unary _ g => _ <- Formula_operators g ;; Raise AttributeError
    | Atom _ => Raise AttributeError
    end.

(** The class invariant that [__init__] establishes at every node. *)
Fixpoint well_formed (f : Formula) : bool :=
  match f with
  | Atom r =>
      match is_variable r with
      | Ok v => v || is_constant r
      | Raise _ => false
      end
  | Unary r g => is_unary r && well_formed g
  | Binary r g h => is_binary r && well_formed g && well_formed h
  end.

(** ** The parser (syntax.py, lines 201-333) *)

(** [string[n:]] *)
Fixpoint slice_from (n : nat) (s : string) : string :=
  match n, s with
  | 0, _ => s
  | S _, EmptyString => EmptyString
  | S n', String _ s' => slice_from n' s'
  end.

(** The [while cur_char.isdigit()] loop of [parse_variable]; [rest] is
    [string[i:]]. *)
Fixpoint parse_variable_loop (current_token rest : string)
  : result (option Formula * string) :=
  match rest with
  | EmptyString =>
      f <- Formula_init current_token None None ;; Ok (Some f, EmptyString)
  | String cur_char rest' =>
      if isdigit_char cur_char then
        parse_variable_loop (current_token ++ String cur_char EmptyString)%string rest'
      else
        f <- Formula_init current_token None None ;; Ok (Some f, rest)
  end.

Definition parse_variable (s : string) : result (option Formula * string) :=
  match s with
  | EmptyString => Ok (None, "error parsing variable")
  | String cur_char rest =>
      let current_token := String cur_char EmptyString in
      v <- is_variable current_token ;;
      if v then parse_variable_loop current_token rest
      else Ok (None, "error parsing variable")
  end.

Definition parse_operator (s : string) : option string * string :=
  match s with
  | EmptyString => (None, "invalid string for operator")
  | String cur_char _ =>
      let current_token := String cur_char EmptyString in
      let finish (current_token : string) (i : nat) :=
        if is_binary current_token
        then (Some current_token, slice_from (i + 1) s)
        else (None, "invalid string for operator") in
      if (cur_char =? "-")%char then
        match String.get 1 s with
        | Some c =>
            if (c =? ">")%char then finish (current_token ++ ">")%string 1
            else (None, "invalid string expected >")
        | None => (None, "invalid string expected >")
        end
      else finish current_token 0
  end.

(** [Formula._parse_prefix], its recursion bounded by [fuel]. The pair is the
    parsed formula and the unparsed suffix, or [None] and an error message. *)
Fixpoint parse_prefix_fuel (fuel : nat) (s : string)
  : result (option Formula * string) :=
  match fuel with
  | 0 => Raise OutOfFuel
  | S fuel' =>
      match s with
      | EmptyString => Ok (None, "Error, empty string")
      | String cur_char rest =>
          let current_token := String cur_char EmptyString in
          if current_token =? "(" then
            r1 <- parse_prefix_fuel fuel' rest ;;
            let (first_var_formula, string_suffix) := r1 in
            match first_var_formula with
            | None => Ok (None, "error parsing string all formula")
            | Some _ =>
                let (operator_str, string_suffix) :=
                  parse_operator string_suffix in
                match operator_str with
                | None => Ok (None, "error parsing string all formula")
                | Some op =>
                    r2 <- parse_prefix_fuel fuel' string_suffix ;;
                    let (second_var_formula, string_suffix) := r2 in
                    match second_var_formula with
                    | None => Ok (None, "error parsing string all formula")
                    | Some _ =>
                        match string_suffix with
                        | String c suffix' =>
                            if (c =? ")")%char then
                              f <- Formula_init op first_var_formula
                                     second_var_formula ;;
                              Ok (Some f, suffix')
                            else Ok (None, "error parsing string all formula")
                        | EmptyString =>
                            Ok (None, "error parsing string all formula")
                        end
                    end
                end
            end
          else
            v <- is_variable current_token ;;
            if v then parse_variable s
            else if is_constant current_token then
              f <- Formula_init current_token None None ;; Ok (Some f, rest)
            else if is_unary current_token then
              r <- parse_prefix_fuel fuel' rest ;;
              let (var_formula, string_suffix) := r in
              match var_formula with
              | Some _ =>
                  f <- Formula_init "~" var_formula None ;;
                  Ok (Some f, string_suffix)
              | None => Ok (None, "invalid string")
              end
            else Ok (None, "invalid string")
      end
  end.

(** Every recursive call is on a strictly shorter string, so the length of
    the input bounds the depth of the recursion (see [parse_prefix_total]). *)
Definition _parse_prefix (s : string) : result (option Formula * string) :=
  parse_prefix_fuel (S (String.length s)) s.

(** [Formula.is_formula]: the pair [res] is never [None], so the test is
    whether [res[1]] is the empty string. *)
Definition is_formula (s : string) : result bool :=
  res <- _parse_prefix s ;;
  Ok (snd res =? EmptyString).

(** [Formula.parse] *)
Definition parse (s : string) : result (option Formula) :=
  b <- is_formula s ;;
  _ <- assert b ;;
  res <- _parse_prefix s ;;
  Ok (fst res).

(** ** Models (semantics.py, lines 15-47) *)

(** A [dict] from names to truth values, in insertion order. *)
Definition Model : Type := list (string * bool).

Definition keys (m : Model) : list string := map fst m.

(** [model.get(k)]: the value, or [None] for a missing key. *)
Fixpoint dict_get (k : string) (m : Model) : pyval :=
  match m with
  | [] => PyNone
  | (k', b) :: m' => if k =? k' then PyBool b else dict_get k m'
  end.

(** [d[k] = b]: an existing key keeps its place, a new one goes last. *)
Fixpoint dict_set (k : string) (b : bool) (m : Model) : Model :=
  match m with
  | [] => [(k, b)]
  | (k', b') :: m' =>
      if k =? k' then (k', b) :: m' else (k', b') :: dict_set k b m'
  end.

Fixpoint is_model_keys (ks : list string) : result bool :=
  match ks with
  | [] => Ok true
  | key :: ks' =>
      v <- is_variable key ;;
      if negb v then Ok false else is_model_keys ks'
  end.

Definition is_model (model : Model) : result bool :=
  is_model_keys (keys model).

(** [variables(model)] *)
Definition variables (model : Model) : result (list string) :=
  b <- is_model model ;;
  _ <- assert b ;;
  Ok (keys model).

(** [a.issubset(b)] on sets of names. *)
Definition issubset (a b : list string) : bool :=
  forallb (fun x => existsb (String.eqb x) b) a.

(** ** Evaluation (semantics.py, lines 50-91) *)

(** [x is False] *)
Definition is_False (x : pyval) : bool :=
  match x with
  | PyBool false => true
  | _ => false
  end.

Fixpoint evaluate (formula : Formula) (model : Model) : result pyval :=
  b <- is_model model ;;
  _ <- assert b ;;
  fv <- Formula_variables formula ;;
  mv <- variables model ;;
  _ <- assert (issubset fv mv) ;;
  let r := root formula in
  v <- is_variable r ;;
  if v then Ok (dict_get r model)
  else if r =? "F" then Ok (PyBool false)
  else if r =? "T" then Ok (PyBool true)
  else if is_unary r then
    match formula with
    | Atom _ => Raise AttributeError
    | Unary _ g | Binary _ g _ =>
        x <- evaluate g model ;; Ok (PyBool (negb (truthy x)))
    end
  else if r =? "&" then
    match formula with
    | Atom _ => Raise AttributeError
    | Unary _ g =>
        x <- evaluate g model ;;
        if truthy x then Raise AttributeError else Ok x
    | Binary _ g h =>
        x <- evaluate g model ;;
        if truthy x then evaluate h model else Ok x
    end
  else if r =? "|" then
    match formula with
    | Atom _ => Raise AttributeError
    | Unary _ g =>
        x <- evaluate g model ;;
        if truthy x then Ok x else Raise AttributeError
    | Binary _ g h =>
        x <- evaluate g model ;;
        if truthy x then Ok x else evaluate h model
    end
  else if r =? "->" then
    match formula with
    | Atom _ => Raise AttributeError
    | Unary _ g => _ <- evaluate g model ;; Raise AttributeError
    | Binary _ g h =>
        left_res <- evaluate g model ;;
        right_res <- evaluate h model ;;
        if is_False left_res || (truthy left_res && truthy right_res)
        then Ok (PyBool true)
        else Ok (PyBool false)
    end
  else Ok PyNone.

(** ** Model enumeration (semantics.py, lines 94-149) *)

Fixpoint mapM {A B : Type} (f : A -> result B) (l : list A)
  : result (list B) :=
  match l with
  | [] => Ok []
  | a :: l' => b <- f a ;; bs <- mapM f l' ;; Ok (b :: bs)
  end.

(** [enumerate(l)] *)
Definition enumerate {A : Type} (l : list A) : list (nat * A) :=
  combine (seq 0 (length l)) l.

(** [itertools.product] over a list of pools: start from the one empty tuple and, pool by
    pool, extend every tuple by every element of the pool. *)
Fixpoint product_loop {A : Type} (pools : list (list A))
  (result : list (list A)) : list (list A) :=
  match pools with
  | [] => result
  | pool :: pools' =>
      product_loop pools'
        (flat_map (fun x => map (fun y => x ++ [y]) pool) result)
  end.

(** [itertools.product(pool, repeat=n)] *)
Definition product {A : Type} (pool : list A) (n : nat) : list (list A) :=
  product_loop (repeat pool n) [[]].

(** [for v in variables: assert is_variable(v)] *)
Fixpoint assert_variables (vs : list string) : result unit :=
  match vs with
  | [] => Ok tt
  | v :: vs' =>
      b <- is_variable v ;; _ <- assert b ;; assert_variables vs'
  end.

(** [for i, v in enumerate(variables): cur_dict[v] = assignment[i]] *)
Fixpoint fill_dict (ivs : list (nat * string)) (assignment : list bool)
  (cur_dict : Model) : result Model :=
  match ivs with
  | [] => Ok cur_dict
  | (i, v) :: ivs' =>
      match nth_error assignment i with
      | Some b => fill_dict ivs' assignment (dict_set v b cur_dict)
      | None => Raise IndexError
      end
  end.

Definition all_models (vs : list string) : result (list Model) :=
  _ <- assert_variables vs ;;
  mapM (fun assignment => fill_dict (enumerate vs) assignment [])
       (product [false; true] (length vs)).

Definition truth_values (formula : Formula) (models : list Model)
  : result (list pyval) :=
  mapM (evaluate formula) models.

(** ** Tautologies (semantics.py, lines 189-226)

    [is_tautology] passes the set [formula.variables()] to [all_models],
    which iterates over it. The order in which Python iterates over a set of
    strings is not fixed by the language; [set_order] stands for it: it
    lists, without repetition, the names collected by [Formula_variables]. *)

(** [for model in models: if not evaluate(formula, model): return False]
    and then [return True]. *)
Fixpoint is_tautology_loop (formula : Formula) (models : list Model)
  : result bool :=
  match models with
  | [] => Ok true
  | model :: models' =>
      x <- evaluate formula model ;;
      if negb (truthy x) then Ok false
      else is_tautology_loop formula models'
  end.

Definition is_tautology (set_order : list string -> list string)
  (formula : Formula) : result bool :=
  fv <- Formula_variables formula ;;
  models <- all_models (set_order fv) ;;
  is_tautology_loop formula models.

Definition is_contradiction (set_order : list string -> list string)
  (formula : Formula) : result bool :=
  g <- Formula_init "~" (Some formula) None ;;
  is_tautology set_order g.

Definition is_satisfiable (set_order : list string -> list string)
  (formula : Formula) : result bool :=
  b <- is_contradiction set_order formula ;;
  Ok (negb b).

(** ** Synthesis (semantics.py, lines 229-299) *)

Fixpoint _synthesize_for_model_helper (vars : list string) (model : Model)
  : result Formula :=
  match vars with
  | [] => Raise IndexError
  | v0 :: rest =>
      cur_formula <- Formula_init v0 None None ;;
      cur_formula <-
        (if negb (truthy (dict_get v0 model))
         then Formula_init "~" (Some cur_formula) None
         else Ok cur_formula) ;;
      if Nat.eqb (length vars) 1 then Ok cur_formula
      else
        tail <- _synthesize_for_model_helper rest model ;;
        Formula_init "&" (Some cur_formula) (Some tail)
  end.

Definition _synthesize_for_model (model : Model) : result Formula :=
  b <- is_model model ;;
  _ <- assert b ;;
  _ <- assert (Nat.ltb 0 (length (keys model))) ;;
  _synthesize_for_model_helper (keys model) model.

(** The [for i, model in enumerate(all_models(variables))] loop of
    [synthesize], on the state [(is_first, cur_formula)]. *)
Fixpoint synthesize_loop (ims : list (nat * Model)) (values : list bool)
  (is_first : bool) (cur_formula : option Formula)
  : result (option Formula) :=
  match ims with
  | [] => Ok cur_formula
  | (i, model) :: ims' =>
      match nth_error values i with
      | None => Raise IndexError
      | Some true =>
          if is_first then
            g <- _synthesize_for_model model ;;
            synthesize_loop ims' values false (Some g)
          else
            g <- _synthesize_for_model model ;;
            f <- Formula_init "|" cur_formula (Some g) ;;
            synthesize_loop ims' values false (Some f)
      | Some false => synthesize_loop ims' values is_first cur_formula
      end
  end.

Definition synthesize (vs : list string) (values : list bool)
  : result Formula :=
  _ <- assert (Nat.ltb 0 (length vs)) ;;
  models <- all_models vs ;;
  cur_formula <- synthesize_loop (enumerate models) values true None ;;
  match cur_formula with
  | None =>
      match nth_error vs 0 with
      | None => Raise IndexError
      | Some v0 =>
          a <- Formula_init v0 None None ;;
          b <- Formula_init v0 None None ;;
          nb <- Formula_init "~" (Some b) None ;;
          Formula_init "&" (Some a) (Some nb)
      end
  | Some f => Ok f
  end.

(** ** Substitution (syntax.py, lines 362-416) and inference checking
       (semantics.py, lines 353-376)

    The bodies of these three functions consist of their assertions only; a
    Python function that ends without [return] yields [None]. *)

(** [for variable in substitution_map: assert is_variable(variable)] *)
Fixpoint substitute_variables_checks (ks : list string) : result unit :=
  match ks with
  | [] => Ok tt
  | variable :: ks' =>
      b <- is_variable variable ;;
      _ <- assert b ;;
      substitute_variables_checks ks'
  end.

Definition substitute_variables (self : Formula)
  (substitution_map : list (string * Formula)) : result (option Formula) :=
  _ <- substitute_variables_checks (map fst substitution_map) ;;
  Ok None.

(** [for operator in substitution_map: assert ...; assert ...]; an entry of
    the list is a key with [substitution_map[key]]. *)
Fixpoint substitute_operators_checks (entries : list (string * Formula))
  : result unit :=
  match entries with
  | [] => Ok tt
  | (operator, template) :: entries' =>
      _ <- assert (is_binary operator || is_unary operator
                   || is_constant operator) ;;
      vs <- Formula_variables template ;;
      _ <- assert (issubset vs ["p"; "q"]) ;;
      substitute_operators_checks entries'
  end.

Definition substitute_operators (self : Formula)
  (substitution_map : list (string * Formula)) : result (option Formula) :=
  _ <- substitute_operators_checks substitution_map ;;
  Ok None.

(** Modelled from the spec: the class [InferenceRule] of
    [propositions/proofs.py], which is imported but is not in this
    repository's sources: "an ordered list of assumption formulas plus one
    conclusion formula". *)
Record InferenceRule : Type := {
  assumptions : list Formula;
  conclusion : Formula
}.

Definition evaluate_inference (rule : InferenceRule) (model : Model)
  : result pyval :=
  b <- is_model model ;;
  _ <- assert b ;;
  Ok PyNone.

(** * Definitions used by the statements

    The lookahead of the parser, the depth of a tree, the truth-functional
    semantics, the binary digits that order the models, and the invariant of
    the synthesis loop. *)

(** The first character of a string, as the parser's lookahead sees it. *)
Definition starts_with_digit (s : string) : bool :=
  match s with
  | EmptyString => false
  | String c _ => isdigit_char c
  end.

(** A letter from ['p'] to ['z']. *)
Definition in_p_z (c : ascii) : bool := (("p" <=? c) && (c <=? "z"))%char.

(** The nesting depth of a tree; it bounds the recursion of the parser on
    the tree's text. *)
Fixpoint depth (f : Formula) : nat :=
  match f with
  | Atom _ => 0
  | Unary _ g => S (depth g)
  | Binary _ g h => S (Nat.max (depth g) (depth h))
  end.

(** The truth-functional semantics in the words of the specification: a
    variable is looked up in the model, [T] and [F] are the literals, [~] is
    negation, [&] conjunction, [|] disjunction and [->] material
    implication. *)
Fixpoint truth_value (f : Formula) (model : Model) : bool :=
  match f with
  | Atom r =>
      if r =? "T" then true
      else if r =? "F" then false
      else truthy (dict_get r model)
  | Unary _ g => negb (truth_value g model)
  | Binary r g h =>
      if r =? "&" then truth_value g model && truth_value h model
      else if r =? "|" then truth_value g model || truth_value h model
      else implb (truth_value g model) (truth_value h model)
  end.

(** The model covers the formula: the formula's variables are keys of the
    model. *)
Definition covers (model : Model) (f : Formula) : bool :=
  match Formula_variables f with
  | Ok vs => issubset vs (keys model)
  | Raise _ => false
  end.

(** The [n] binary digits of [i], most significant first. *)
Definition binary_digits (n i : nat) : list bool :=
  map (fun j => Nat.testbit i (n - 1 - j)) (seq 0 n).

(** Every name of the list passes [is_variable]. *)
Definition variable_names (vs : list string) : Prop :=
  Forall (fun v => is_variable v = Ok true) vs.

(** Equality of two tuples of truth values. *)
Fixpoint assignment_eqb (a b : list bool) : bool :=
  match a, b with
  | [], [] => true
  | x :: a', y :: b' => Bool.eqb x y && assignment_eqb a' b'
  | _, _ => false
  end.

(** The assignments whose entry of the truth table is [True], in order. *)
Fixpoint selected (assignments : list (list bool)) (values : list bool)
  : list (list bool) :=
  match assignments, values with
  | a :: assignments', t :: values' =>
      if t then a :: selected assignments' values'
      else selected assignments' values'
  | _, _ => []
  end.

(** The literal that [_synthesize_for_model_helper] builds for one variable. *)
Definition literal (v : string) (model : Model) : Formula :=
  if negb (truthy (dict_get v model)) then Unary "~" (Atom v) else Atom v.

(** What the loop of [synthesize] has built after the assignments [sel] were
    selected: nothing yet, or a formula over [vs] that holds exactly in the
    models of [sel]. *)
Definition represents (vs : list string) (cur_formula : option Formula)
  (sel : list (list bool)) : Prop :=
  match cur_formula with
  | None => sel = []
  | Some f =>
      sel <> []
      /\ well_formed f = true
      /\ (exists fv, Formula_variables f = Ok fv /\ incl fv vs)
      /\ forall a', length a' = length vs ->
           truth_value f (combine vs a') = existsb (assignment_eqb a') sel
  end.

(** The flag [is_first] of the loop, as a function of [cur_formula]. *)
Definition is_first_of (cur_formula : option Formula) : bool :=
  match cur_formula with
  | None => true
  | Some _ => false
  end.

(** [set_order] is an iteration order of sets: no repetition, same
    elements. *)
Definition iteration_order (set_order : list string -> list string) : Prop :=
  forall l, NoDup (set_order l) /\ forall x, In x (set_order l) <-> In x l.

(** The tree is a variable under any number of negations, so that its text
    ends with the variable's name. *)
Fixpoint ends_with_variable (f : Formula) : bool :=
  match f with
  | Atom r =>
      match is_variable r with
      | Ok v => v
      | Raise _ => false
      end
  | Unary _ g => ends_with_variable g
  | Binary _ _ _ => false
  end.

(** A variable or a negated variable. *)
Definition is_literal (f : Formula) : bool :=
  match f with
  | Atom _ => ends_with_variable f
  | Unary r (Atom _ as g) => is_unary r && ends_with_variable g
  | _ => false
  end.

(** Literals joined by [&], nested to the right. *)
Fixpoint is_conjunctive_clause (f : Formula) : bool :=
  match f with
  | Binary r g h => (r =? "&") && is_literal g && is_conjunctive_clause h
  | _ => is_literal f
  end.

(** Disjunctive normal form: conjunctive clauses joined by [|], nested to the
    left. *)
Fixpoint is_dnf (f : Formula) : bool :=
  match f with
  | Binary r g h =>
      if r =? "|" then is_dnf g && is_conjunctive_clause h
      else is_conjunctive_clause f
  | _ => is_conjunctive_clause f
  end.

(** The two models give every listed variable the same value. *)
Definition agree_on (xs : list string) (m m' : Model) : Prop :=
  forall x, In x xs -> dict_get x m = dict_get x m'.

(** [op] is a constant, the unary operator or a binary operator. *)
Definition is_operator (op : string) : bool :=
  is_constant op || is_unary op || is_binary op.

(** The models that [is_tautology] tries: the assignments to the formula's
    variables [fv], in the order in which the set is iterated. *)
Definition tried_models (set_order : list string -> list string)
  (fv : list string) : list Model :=
  map (combine (set_order fv))
      (map (binary_digits (length (set_order fv)))
           (seq 0 (2 ^ length (set_order fv)))).

(** What the loop of [synthesize] keeps: no formula yet, or a well-formed
    formula in disjunctive normal form over the given names. *)
Definition dnf_over (vs : list string) (cur_formula : option Formula) : Prop :=
  match cur_formula with
  | None => True
  | Some f =>
      is_dnf f = true /\ well_formed f = true
      /\ exists fv, Formula_variables f = Ok fv /\ incl fv vs
  end.

(** The models handed to the loop of [synthesize]: valid, with a key, over
    the names [vs]. *)
Definition usable (vs : list string) (m : Model) : Prop :=
  is_model m = Ok true /\ keys m <> [] /\ incl (keys m) vs.

(** * Properties *)

(** ** Strings and token classifiers *)

Lemma append_assoc (a b c : string) :
  ((a ++ b) ++ c)%string = (a ++ (b ++ c))%string.
Proof.
  induction a as [|x a IH]; simpl; [reflexivity | now rewrite IH].
Qed.

Lemma append_nil_r (a : string) : (a ++ EmptyString)%string = a.
Proof.
  induction a as [|x a IH]; simpl; [reflexivity | now rewrite IH].
Qed.

Lemma length_append (a b : string) :
  String.length (a ++ b) = String.length a + String.length b.
Proof.
  induction a as [|x a IH]; simpl; [reflexivity | now rewrite IH].
Qed.

Lemma all_digits_app (a b : string) :
  all_digits (a ++ b) = all_digits a && all_digits b.
Proof.
  induction a as [|x a IH]; simpl; [reflexivity|].
  now rewrite IH, andb_assoc.
Qed.

Lemma in_p_z_not_special (c : ascii) :
  in_p_z c = true ->
  (c =? "(")%char = false /\ isdigit_char c = false
  /\ is_constant (String c EmptyString) = false.
Proof.
  destruct c as [[] [] [] [] [] [] [] []]; vm_compute; intuition congruence.
Qed.

Lemma is_variable_char (c : ascii) :
  is_variable (String c EmptyString) = Ok (in_p_z c).
Proof.
  unfold is_variable, in_p_z. simpl. now rewrite andb_true_r.
Qed.

Lemma is_variable_inv (s : string) :
  is_variable s = Ok true ->
  exists c ds, s = String c ds /\ in_p_z c = true /\ all_digits ds = true.
Proof.
  destruct s as [|c ds]; simpl; [discriminate|].
  intros H. injection H as H. apply andb_true_iff in H as [Hc Hd].
  exists c, ds. repeat split; [exact Hc|].
  destruct ds as [|d ds]; [reflexivity|]. simpl in Hd. exact Hd.
Qed.

Lemma is_variable_intro (c : ascii) (ds : string) :
  in_p_z c = true -> all_digits ds = true ->
  is_variable (String c ds) = Ok true.
Proof.
  intros Hc Hd. unfold is_variable. fold (in_p_z c). rewrite Hc.
  destruct ds as [|d ds]; [reflexivity|].
  simpl in *. now rewrite Hd.
Qed.

Lemma is_variable_snoc (tok : string) (c : ascii) :
  is_variable tok = Ok true -> isdigit_char c = true ->
  is_variable (tok ++ String c EmptyString) = Ok true.
Proof.
  intros H Hc. apply is_variable_inv in H as (a & ds & -> & Ha & Hd).
  simpl. apply is_variable_intro; [exact Ha|].
  rewrite all_digits_app, Hd. simpl. now rewrite Hc.
Qed.

Lemma is_binary_inv (op : string) :
  is_binary op = true -> op = "&" \/ op = "|" \/ op = "->".
Proof.
  unfold is_binary. rewrite !orb_true_iff, !String.eqb_eq. tauto.
Qed.

Lemma is_unary_inv (op : string) : is_unary op = true -> op = "~".
Proof. unfold is_unary. now rewrite String.eqb_eq. Qed.

(** ** The constructor *)

Lemma Formula_init_atom (r : string) (v : bool) :
  is_variable r = Ok v -> v || is_constant r = true ->
  Formula_init r None None = Ok (Atom r).
Proof.
  intros Hv Hc. unfold Formula_init. rewrite Hv. simpl. now rewrite Hc.
Qed.

Lemma Formula_init_variable (r : string) :
  is_variable r = Ok true -> Formula_init r None None = Ok (Atom r).
Proof. intros H. now apply Formula_init_atom with (v := true). Qed.

Lemma Formula_init_unary (f : Formula) :
  Formula_init "~" (Some f) None = Ok (Unary "~" f).
Proof. reflexivity. Qed.

Lemma Formula_init_binary (op : string) (f g : Formula) :
  is_binary op = true ->
  Formula_init op (Some f) (Some g) = Ok (Binary op f g).
Proof.
  intros H. destruct (is_binary_inv _ H) as [-> | [-> | ->]]; reflexivity.
Qed.

(** Whatever [__init__] returns satisfies the class invariant at its root. *)
Lemma Formula_init_well_formed (r : string) (a b : option Formula)
  (f : Formula) :
  Formula_init r a b = Ok f ->
  match f with
  | Atom r' =>
      r' = r /\ exists v, is_variable r = Ok v /\ v || is_constant r = true
  | Unary r' g => r' = r /\ is_unary r = true /\ a = Some g
  | Binary r' g h => r' = r /\ is_binary r = true /\ a = Some g /\ b = Some h
  end.
Proof.
  unfold Formula_init. destruct (is_variable r) as [v|e] eqn:Hv; simpl;
    [|discriminate].
  destruct (v || is_constant r) eqn:Hc.
  - destruct a, b; intros H; inversion H; subst. eauto.
  - destruct (is_unary r) eqn:Hu.
    + destruct a, b; intros H; inversion H; subst. auto.
    + destruct (is_binary r) eqn:Hb; simpl; [|discriminate].
      destruct a, b; intros H; inversion H; subst. auto.
Qed.

(** Hence every tree built by [__init__] from trees that satisfy the
    invariant satisfies it. *)
Lemma Formula_init_preserves_well_formed (r : string) (a b : option Formula)
  (f : Formula) :
  Formula_init r a b = Ok f ->
  (forall g, a = Some g -> well_formed g = true) ->
  (forall h, b = Some h -> well_formed h = true) ->
  well_formed f = true.
Proof.
  intros H Ha Hb. apply Formula_init_well_formed in H.
  destruct f as [r' | r' g | r' g h]; cbn [well_formed].
  - destruct H as (-> & v & -> & Hv). exact Hv.
  - destruct H as (-> & -> & Hg). now rewrite (Ha g Hg).
  - destruct H as (-> & -> & Hg & Hh). now rewrite (Ha g Hg), (Hb h Hh).
Qed.

(** ** The parser *)

Lemma parse_operator_cases (s : string) :
  (exists op suf, parse_operator s = (Some op, suf)
                  /\ is_binary op = true
                  /\ String.length suf < String.length s)
  \/ (exists msg, parse_operator s = (None, msg)).
Proof.
  destruct s as [|c s]; [right; eexists; reflexivity|].
  unfold parse_operator.
  destruct (c =? "-")%char eqn:Hc.
  - destruct s as [|d s]; [right; eexists; reflexivity|].
    change (String.get 1 (String c (String d s))) with (Some d).
    cbv beta iota. destruct (d =? ">")%char eqn:Hd;
      [|right; eexists; reflexivity].
    apply Ascii.eqb_eq in Hc, Hd. subst c d. left.
    exists "->", s. simpl. repeat split. lia.
  - destruct (is_binary (String c EmptyString)) eqn:Hb;
      [|right; eexists; reflexivity].
    left. exists (String c EmptyString), s. simpl. repeat split; auto.
Qed.

Lemma parse_variable_loop_ok (rest tok : string) :
  is_variable tok = Ok true ->
  exists tok' suf,
    parse_variable_loop tok rest = Ok (Some (Atom tok'), suf)
    /\ is_variable tok' = Ok true
    /\ String.length suf <= String.length rest.
Proof.
  revert tok. induction rest as [|c rest IH]; intros tok Htok; simpl.
  - rewrite (Formula_init_variable _ Htok). simpl. eauto.
  - destruct (isdigit_char c) eqn:Hc.
    + destruct (IH _ (is_variable_snoc _ _ Htok Hc)) as (t & suf & -> & Ht & Hl).
      exists t, suf. repeat split; auto.
    + rewrite (Formula_init_variable _ Htok). simpl. eauto.
Qed.

Lemma parse_variable_loop_digits (ds tok rest : string) :
  all_digits ds = true -> starts_with_digit rest = false ->
  is_variable tok = Ok true ->
  parse_variable_loop tok (ds ++ rest) = Ok (Some (Atom (tok ++ ds)), rest).
Proof.
  revert tok. induction ds as [|d ds IH]; intros tok Hds Hrest Htok.
  - rewrite append_nil_r. simpl.
    destruct rest as [|c rest]; simpl.
    + now rewrite (Formula_init_variable _ Htok).
    + simpl in Hrest. rewrite Hrest.
      now rewrite (Formula_init_variable _ Htok).
  - simpl in Hds. apply andb_true_iff in Hds as [Hd Hds].
    simpl. rewrite Hd.
    rewrite (IH _ Hds Hrest (is_variable_snoc _ _ Htok Hd)).
    now rewrite append_assoc.
Qed.

(** On every input, with fuel beyond the input's length, the parser returns:
    a well-formed formula and a strictly shorter suffix, or [None] and a
    non-empty message. It never raises and never runs out of fuel. *)
Lemma parse_prefix_fuel_total (n : nat) :
  forall s, String.length s < n ->
  exists o suf,
    parse_prefix_fuel n s = Ok (o, suf)
    /\ match o with
       | Some f => well_formed f = true
                   /\ String.length suf < String.length s
       | None => suf <> EmptyString
       end.
Proof.
  induction n as [|n IH]; intros s Hlen; [lia|].
  destruct s as [|c rest].
  { eexists None, _. split; [reflexivity | discriminate]. }
  cbn [parse_prefix_fuel]. cbn [String.length] in Hlen.
  destruct (String c EmptyString =? "(") eqn:Hparen.
  - destruct (IH rest ltac:(lia)) as (o1 & suf1 & -> & H1). cbn [bind].
    destruct o1 as [f1|];
      [|eexists None, _; split; [reflexivity | discriminate]].
    destruct H1 as [Hwf1 Hl1].
    destruct (parse_operator_cases suf1)
      as [(op & suf2 & -> & Hop & Hl2) | (msg & ->)];
      [|eexists None, _; split; [reflexivity | discriminate]].
    destruct (IH suf2 ltac:(lia)) as (o2 & suf3 & -> & H2). cbn [bind].
    destruct o2 as [f2|];
      [|eexists None, _; split; [reflexivity | discriminate]].
    destruct H2 as [Hwf2 Hl3].
    destruct suf3 as [|d suf4];
      [eexists None, _; split; [reflexivity | discriminate]|].
    destruct (d =? ")")%char;
      [|eexists None, _; split; [reflexivity | discriminate]].
    rewrite (Formula_init_binary _ f1 f2 Hop). cbn [bind].
    exists (Some (Binary op f1 f2)), suf4. split; [reflexivity|].
    cbn [well_formed String.length] in *.
    rewrite Hop, Hwf1, Hwf2. split; [reflexivity | lia].
  - rewrite is_variable_char. cbn [bind].
    destruct (in_p_z c) eqn:Hv.
    + destruct (parse_variable_loop_ok rest (String c EmptyString))
        as (t & suf & Hp & Ht & Hl).
      { now rewrite is_variable_char, Hv. }
      unfold parse_variable. rewrite is_variable_char, Hv. cbn [bind].
      rewrite Hp. exists (Some (Atom t)), suf. split; [reflexivity|].
      cbn [well_formed String.length]. rewrite Ht.
      split; [reflexivity | lia].
    + destruct (is_constant (String c EmptyString)) eqn:Hc.
      * rewrite (Formula_init_atom _ false);
          [|now rewrite is_variable_char, Hv | exact Hc].
        cbn [bind]. exists (Some (Atom (String c EmptyString))), rest.
        split; [reflexivity|]. cbn [well_formed String.length].
        rewrite is_variable_char, Hv, Hc. split; [reflexivity | lia].
      * destruct (is_unary (String c EmptyString)) eqn:Hu;
          [|eexists None, _; split; [reflexivity | discriminate]].
        destruct (IH rest ltac:(lia)) as (o1 & suf1 & -> & H1). cbn [bind].
        destruct o1 as [f1|];
          [|eexists None, _; split; [reflexivity | discriminate]].
        destruct H1 as [Hwf1 Hl1]. rewrite Formula_init_unary. cbn [bind].
        exists (Some (Unary "~" f1)), suf1. split; [reflexivity|].
        cbn [well_formed String.length]. rewrite Hwf1.
        split; [reflexivity | lia].
Qed.

(** ** Printing, then parsing *)

Lemma by_root_leaf {A : Type} (r : string) (v : bool) (a b c : result A) :
  is_variable r = Ok v -> v || is_constant r = true -> by_root r a b c = a.
Proof.
  intros Hv Hc. unfold by_root. rewrite Hv. cbn [bind]. now rewrite Hc.
Qed.

Lemma by_root_unary {A : Type} (a b c : result A) : by_root "~" a b c = b.
Proof. reflexivity. Qed.

Lemma by_root_binary {A : Type} (r : string) (a b c : result A) :
  is_binary r = true -> by_root r a b c = c.
Proof.
  intros H. destruct (is_binary_inv _ H) as [-> | [-> | ->]]; reflexivity.
Qed.

Lemma eqb_single (c d : ascii) :
  (String c EmptyString =? String d EmptyString) = (c =? d)%char.
Proof.
  destruct (Ascii.eqb_spec c d) as [-> | Hne].
  - apply String.eqb_refl.
  - apply String.eqb_neq. congruence.
Qed.

Lemma parse_prefix_fuel_unary (n : nat) (t : string) :
  parse_prefix_fuel (S n) (String "~" t) =
  r <- parse_prefix_fuel n t ;;
  let (var_formula, string_suffix) := r in
  match var_formula with
  | Some _ => f <- Formula_init "~" var_formula None ;;
              Ok (Some f, string_suffix)
  | None => Ok (None, "invalid string")
  end.
Proof. reflexivity. Qed.

Lemma parse_operator_binary (op rest : string) :
  is_binary op = true -> parse_operator (op ++ rest) = (Some op, rest).
Proof.
  intros H. destruct (is_binary_inv _ H) as [-> | [-> | ->]]; reflexivity.
Qed.

Lemma binary_not_digit (op rest : string) :
  is_binary op = true -> starts_with_digit (op ++ rest) = false.
Proof.
  intros H. destruct (is_binary_inv _ H) as [-> | [-> | ->]]; reflexivity.
Qed.

Lemma parse_prefix_fuel_atom (n : nat) (r rest : string) (v : bool) :
  is_variable r = Ok v -> v || is_constant r = true ->
  starts_with_digit rest = false ->
  parse_prefix_fuel (S n) (r ++ rest) = Ok (Some (Atom r), rest).
Proof.
  intros Hv Hc Hrest. destruct v.
  - apply is_variable_inv in Hv as (c & ds & -> & Hin & Hds).
    destruct (in_p_z_not_special c Hin) as (Hparen & _ & _).
    change (String c ds ++ rest)%string with (String c (ds ++ rest)).
    cbn [parse_prefix_fuel].
    rewrite eqb_single, Hparen, is_variable_char, Hin. cbn [bind].
    unfold parse_variable. rewrite is_variable_char, Hin. cbn [bind].
    rewrite parse_variable_loop_digits; auto.
    now rewrite is_variable_char, Hin.
  - cbn [orb] in Hc. unfold is_constant in Hc.
    apply orb_true_iff in Hc as [Hc | Hc]; apply String.eqb_eq in Hc;
      subst r; reflexivity.
Qed.

(** The parser inverts [__repr__], whatever follows the printed formula (short
    of a digit, which a variable name would absorb). *)
Lemma parse_prefix_fuel_repr (f : Formula) :
  well_formed f = true ->
  exists s,
    repr f = Ok s
    /\ depth f < String.length s
    /\ forall n rest,
         depth f < n -> starts_with_digit rest = false ->
         parse_prefix_fuel n (s ++ rest) = Ok (Some f, rest).
Proof.
  induction f as [r | r g IHg | r g IHg h IHh]; cbn [well_formed]; intros Hwf.
  - destruct (is_variable r) as [v|e] eqn:Hv; [|discriminate].
    exists r. cbn [repr]. rewrite (by_root_leaf r v) by assumption.
    split; [reflexivity|]. split.
    + destruct r; [discriminate Hv | cbn; lia].
    + intros [|n] rest Hn Hrest; [lia|].
      now apply parse_prefix_fuel_atom with (v := v).
  - apply andb_true_iff in Hwf as [Hr Hg]. apply is_unary_inv in Hr. subst r.
    destruct (IHg Hg) as (s & Hs & Hlen & Hparse).
    exists ("~" ++ s)%string. cbn [repr]. rewrite by_root_unary, Hs.
    split; [reflexivity|]. split; [cbn; lia|].
    intros [|n] rest Hn Hrest; [lia|]. cbn [depth] in Hn.
    change (("~" ++ s) ++ rest)%string with (String "~" (s ++ rest)).
    rewrite parse_prefix_fuel_unary, Hparse by (auto; lia).
    reflexivity.
  - apply andb_true_iff in Hwf as [Hwf Hh].
    apply andb_true_iff in Hwf as [Hr Hg].
    destruct (IHg Hg) as (s1 & Hs1 & Hlen1 & Hparse1).
    destruct (IHh Hh) as (s2 & Hs2 & Hlen2 & Hparse2).
    exists ("(" ++ s1 ++ r ++ s2 ++ ")")%string. cbn [repr].
    rewrite by_root_binary, Hs1, Hs2 by assumption.
    split; [reflexivity|]. split.
    + cbn [depth String.append String.length].
      rewrite !length_append. cbn [String.length]. lia.
    + intros [|n] rest Hn Hrest; [lia|]. cbn [depth] in Hn.
      change (("(" ++ s1 ++ r ++ s2 ++ ")") ++ rest)%string
        with (String "(" ((s1 ++ r ++ s2 ++ ")") ++ rest)).
      rewrite !append_assoc. cbn [parse_prefix_fuel].
      change (String "(" EmptyString =? "(") with true. cbv iota.
      rewrite Hparse1 by (try lia; now apply binary_not_digit).
      cbn [bind]. rewrite parse_operator_binary by assumption.
      rewrite Hparse2 by (try lia; reflexivity).
      cbn [bind String.append]. change (")" =? ")")%char with true. cbv iota.
      now rewrite Formula_init_binary.
Qed.

Lemma parse_prefix_total (s : string) :
  exists o suf,
    _parse_prefix s = Ok (o, suf)
    /\ match o with
       | Some f => well_formed f = true
                   /\ String.length suf < String.length s
       | None => suf <> EmptyString
       end.
Proof. apply parse_prefix_fuel_total. lia. Qed.

(** C8. [is_formula] returns a boolean on every string, and returns [True]
    exactly when [_parse_prefix] parses a formula and leaves the empty suffix.
    It is [False] on ["(p&q"] and on ["->p"], and [_parse_prefix] on the
    empty string reports an error and no formula. *)
Theorem is_formula_total_and_exact :
  (forall s, exists b,
      is_formula s = Ok b
      /\ (b = true <-> exists f, _parse_prefix s = Ok (Some f, EmptyString)))
  /\ is_formula "(p&q" = Ok false
  /\ is_formula "->p" = Ok false
  /\ _parse_prefix EmptyString = Ok (None, "Error, empty string").
Proof.
  split; [|repeat split; reflexivity].
  intros s. unfold is_formula.
  destruct (parse_prefix_total s) as (o & suf & -> & H). cbn [bind snd].
  eexists. split; [reflexivity|]. split.
  - intros Hsuf. apply String.eqb_eq in Hsuf. subst suf.
    destruct o as [f|]; [eauto | now elim H].
  - intros (f & Hf). injection Hf as -> ->. reflexivity.
Qed.

(** C2. Printing a formula that satisfies the class invariant and parsing the
    text gives the formula back: the text is accepted by [is_formula], and
    [parse] returns a formula equal to the original, structurally and under
    [__eq__]. *)
Theorem parse_repr_roundtrip (f : Formula) :
  well_formed f = true ->
  exists s g,
    repr f = Ok s
    /\ is_formula s = Ok true
    /\ parse s = Ok (Some g)
    /\ Formula_eq g f = Ok true
    /\ g = f.
Proof.
  intros Hwf. destruct (parse_prefix_fuel_repr f Hwf) as (s & Hs & Hlen & Hp).
  specialize (Hp (S (String.length s)) EmptyString ltac:(lia) eq_refl).
  rewrite append_nil_r in Hp.
  assert (Hif : is_formula s = Ok true).
  { unfold is_formula, _parse_prefix. now rewrite Hp. }
  exists s, f. repeat split; auto.
  - unfold parse. rewrite Hif. cbn [bind assert].
    unfold _parse_prefix. now rewrite Hp.
  - unfold Formula_eq. rewrite Hs. cbn [bind]. now rewrite String.eqb_refl.
Qed.

Lemma parse_repr_roundtrip_witness :
  exists s g,
    repr (Binary "->" (Unary "~" (Atom "q76")) (Binary "|" (Atom "T") (Atom "x")))
      = Ok s
    /\ is_formula s = Ok true
    /\ parse s = Ok (Some g)
    /\ Formula_eq g
         (Binary "->" (Unary "~" (Atom "q76")) (Binary "|" (Atom "T") (Atom "x")))
       = Ok true
    /\ g = Binary "->" (Unary "~" (Atom "q76")) (Binary "|" (Atom "T") (Atom "x")).
Proof.
  apply parse_repr_roundtrip. reflexivity.
Defined.

(** ** Evaluation *)

Lemma variables_of_model (model : Model) :
  is_model model = Ok true -> variables model = Ok (keys model).
Proof. intros H. unfold variables. now rewrite H. Qed.

Lemma dict_get_key (k : string) (model : Model) :
  existsb (String.eqb k) (keys model) = true ->
  exists b, dict_get k model = PyBool b.
Proof.
  induction model as [|[k' b'] model IH]; cbn; [discriminate|].
  destruct (k =? k'); cbn; eauto.
Qed.

Lemma issubset_app (a b c : list string) :
  issubset (a ++ b) c = issubset a c && issubset b c.
Proof. unfold issubset. apply forallb_app. Qed.

Lemma Formula_variables_atom (r : string) (v : bool) :
  is_variable r = Ok v -> v || is_constant r = true ->
  Formula_variables (Atom r) = Ok (if v then [r] else []).
Proof.
  intros Hv Hc. cbn [Formula_variables root]. rewrite Hv. cbn [bind].
  destruct v; [reflexivity|]. cbn in Hc. now rewrite Hc.
Qed.

Lemma Formula_variables_unary (g : Formula) :
  Formula_variables (Unary "~" g) = Formula_variables g.
Proof. reflexivity. Qed.

Lemma Formula_variables_binary (r : string) (g h : Formula) :
  is_binary r = true ->
  Formula_variables (Binary r g h) =
  s1 <- Formula_variables g ;; s2 <- Formula_variables h ;; Ok (s1 ++ s2).
Proof.
  intros H. destruct (is_binary_inv _ H) as [-> | [-> | ->]]; reflexivity.
Qed.

Lemma Formula_variables_total (f : Formula) :
  well_formed f = true -> exists vs, Formula_variables f = Ok vs.
Proof.
  induction f as [r | r g IHg | r g IHg h IHh]; cbn [well_formed]; intros Hwf.
  - destruct (is_variable r) as [v|e] eqn:Hv; [|discriminate].
    rewrite (Formula_variables_atom r v) by assumption. eauto.
  - apply andb_true_iff in Hwf as [Hr Hg]. apply is_unary_inv in Hr. subst r.
    rewrite Formula_variables_unary. auto.
  - apply andb_true_iff in Hwf as [Hwf Hh].
    apply andb_true_iff in Hwf as [Hr Hg].
    rewrite Formula_variables_binary by assumption.
    destruct (IHg Hg) as (s1 & ->). destruct (IHh Hh) as (s2 & ->).
    cbn [bind]. eauto.
Qed.

Lemma covers_unary (model : Model) (g : Formula) :
  covers model (Unary "~" g) = covers model g.
Proof. reflexivity. Qed.

Lemma covers_binary (model : Model) (r : string) (g h : Formula) :
  is_binary r = true -> covers model (Binary r g h) = true ->
  covers model g = true /\ covers model h = true.
Proof.
  intros Hr. unfold covers. rewrite Formula_variables_binary by assumption.
  destruct (Formula_variables g) as [s1|]; cbn [bind]; [|discriminate].
  destruct (Formula_variables h) as [s2|]; cbn [bind]; [|discriminate].
  rewrite issubset_app. apply andb_true_iff.
Qed.

(** Under its two assertions, [evaluate] is the dispatch on the root. *)
Lemma evaluate_dispatch (f : Formula) (model : Model) :
  is_model model = Ok true -> covers model f = true ->
  evaluate f model =
  let r := root f in
  v <- is_variable r ;;
  if v then Ok (dict_get r model)
  else if r =? "F" then Ok (PyBool false)
  else if r =? "T" then Ok (PyBool true)
  else if is_unary r then
    match f with
    | Atom _ => Raise AttributeError
    | Unary _ g | Binary _ g _ =>
        x <- evaluate g model ;; Ok (PyBool (negb (truthy x)))
    end
  else if r =? "&" then
    match f with
    | Atom _ => Raise AttributeError
    | Unary _ g =>
        x <- evaluate g model ;;
        if truthy x then Raise AttributeError else Ok x
    | Binary _ g h =>
        x <- evaluate g model ;;
        if truthy x then evaluate h model else Ok x
    end
  else if r =? "|" then
    match f with
    | Atom _ => Raise AttributeError
    | Unary _ g =>
        x <- evaluate g model ;;
        if truthy x then Ok x else Raise AttributeError
    | Binary _ g h =>
        x <- evaluate g model ;;
        if truthy x then Ok x else evaluate h model
    end
  else if r =? "->" then
    match f with
    | Atom _ => Raise AttributeError
    | Unary _ g => _ <- evaluate g model ;; Raise AttributeError
    | Binary _ g h =>
        left_res <- evaluate g model ;;
        right_res <- evaluate h model ;;
        if is_False left_res || (truthy left_res && truthy right_res)
        then Ok (PyBool true)
        else Ok (PyBool false)
    end
  else Ok PyNone.
Proof.
  intros Hm Hc. unfold covers in Hc.
  destruct (Formula_variables f) as [vs|] eqn:Hvs; [|discriminate].
  destruct f; cbn [evaluate]; rewrite Hm; cbn [bind assert];
    rewrite Hvs, (variables_of_model _ Hm); cbn [bind]; rewrite Hc;
    reflexivity.
Qed.

Lemma evaluate_truth_value (f : Formula) (model : Model) :
  well_formed f = true -> is_model model = Ok true ->
  covers model f = true ->
  evaluate f model = Ok (PyBool (truth_value f model)).
Proof.
  intros Hwf Hm. induction f as [r | r g IHg | r g IHg h IHh];
    intros Hc; rewrite evaluate_dispatch by assumption;
    cbn [well_formed root truth_value] in *; cbv zeta.
  - destruct (is_variable r) as [v|e] eqn:Hv; [|discriminate]. cbn [bind].
    destruct v.
    + unfold covers in Hc.
      rewrite (Formula_variables_atom r true) in Hc by assumption.
      cbn in Hc. rewrite andb_true_r in Hc.
      destruct (dict_get_key _ _ Hc) as (b & Hb). rewrite Hb.
      apply is_variable_inv in Hv as (c & ds & -> & Hin & _).
      destruct (in_p_z_not_special c Hin) as (_ & _ & Hk).
      assert (HT : (String c ds =? "T") = false).
      { apply String.eqb_neq. intros E. injection E as -> ->.
        discriminate Hk. }
      assert (HF : (String c ds =? "F") = false).
      { apply String.eqb_neq. intros E. injection E as -> ->.
        discriminate Hk. }
      now rewrite HT, HF.
    + cbn in Hwf. unfold is_constant in Hwf.
      apply orb_true_iff in Hwf as [H | H]; apply String.eqb_eq in H;
        subst r; reflexivity.
  - apply andb_true_iff in Hwf as [Hr Hg]. apply is_unary_inv in Hr. subst r.
    rewrite covers_unary in Hc. cbn [is_variable bind].
    rewrite (IHg Hg Hc). reflexivity.
  - apply andb_true_iff in Hwf as [Hwf Hh].
    apply andb_true_iff in Hwf as [Hr Hg].
    destruct (covers_binary _ _ _ _ Hr Hc) as [Hcg Hch].
    specialize (IHg Hg Hcg). specialize (IHh Hh Hch).
    destruct (is_binary_inv _ Hr) as [-> | [-> | ->]];
      cbn [is_variable bind]; rewrite IHg; cbn; try rewrite IHh;
      destruct (truth_value g model); cbn; try rewrite IHh;
      try reflexivity; destruct (truth_value h model); reflexivity.
Qed.

(** C4. On a formula satisfying the class invariant and a model that covers
    it, [evaluate] returns the truth-functional value [truth_value]: variables
    are looked up, [T]/[F] are the literals, [~] negates, [&] is conjunction,
    [|] disjunction and [->] material implication. The parsed formula
    [~(p&q76)] evaluates to [True] under p:True, q76:False and to [False]
    under p:True, q76:True. *)
Theorem evaluate_truth_functional (f : Formula) (model : Model) :
  well_formed f = true -> is_model model = Ok true ->
  covers model f = true ->
  evaluate f model = Ok (PyBool (truth_value f model))
  /\ exists g,
       parse "~(p&q76)" = Ok (Some g)
       /\ evaluate g [("p", true); ("q76", false)] = Ok (PyBool true)
       /\ evaluate g [("p", true); ("q76", true)] = Ok (PyBool false).
Proof.
  intros Hwf Hm Hc. split; [now apply evaluate_truth_value|].
  eexists. repeat split; reflexivity.
Qed.

Lemma evaluate_truth_functional_witness :
  evaluate (Binary "->" (Atom "p") (Binary "|" (Atom "F") (Unary "~" (Atom "q7"))))
           [("q7", true); ("p", true)]
  = Ok (PyBool false)
  /\ exists g,
       parse "~(p&q76)" = Ok (Some g)
       /\ evaluate g [("p", true); ("q76", false)] = Ok (PyBool true)
       /\ evaluate g [("p", true); ("q76", true)] = Ok (PyBool false).
Proof.
  apply (evaluate_truth_functional
           (Binary "->" (Atom "p")
              (Binary "|" (Atom "F") (Unary "~" (Atom "q7"))))
           [("q7", true); ("p", true)]); reflexivity.
Defined.

(** ** Model enumeration *)

Lemma length_binary_digits (n i : nat) : length (binary_digits n i) = n.
Proof. unfold binary_digits. now rewrite length_map, length_seq. Qed.

Lemma binary_digits_S (k i : nat) :
  binary_digits (S k) i = binary_digits k (Nat.div2 i) ++ [Nat.odd i].
Proof.
  unfold binary_digits. rewrite seq_S, map_app. cbn [map]. f_equal.
  - apply map_ext_in. intros j Hj. apply in_seq in Hj.
    replace (S k - 1 - j) with (S (k - 1 - j)) by lia.
    reflexivity.
  - replace (S k - 1 - (0 + k)) with 0 by lia. reflexivity.
Qed.

Lemma binary_digits_inj (n : nat) :
  forall i j, i < 2 ^ n -> j < 2 ^ n ->
  binary_digits n i = binary_digits n j -> i = j.
Proof.
  induction n as [|k IH]; intros i j Hi Hj E.
  - cbn in Hi, Hj. lia.
  - rewrite !binary_digits_S in E. apply app_inj_tail in E as [E Eo].
    rewrite Nat.pow_succ_r' in Hi, Hj.
    pose proof (Nat.div2_odd i) as Di. pose proof (Nat.div2_odd j) as Dj.
    assert (Nat.div2 i = Nat.div2 j) as Ed.
    { apply IH; auto.
      - destruct (Nat.odd i); cbn [Nat.b2n] in Di; lia.
      - destruct (Nat.odd j); cbn [Nat.b2n] in Dj; lia. }
    rewrite Di, Dj, Ed, Eo. reflexivity.
Qed.

Lemma product_loop_app {A : Type} (ps qs : list (list A)) (r : list (list A)) :
  product_loop (ps ++ qs) r = product_loop qs (product_loop ps r).
Proof.
  revert r. induction ps as [|p ps IH]; intros r; cbn; [reflexivity|].
  apply IH.
Qed.

Lemma product_S {A : Type} (pool : list A) (k : nat) :
  product pool (S k) =
  flat_map (fun x => map (fun y => x ++ [y]) pool) (product pool k).
Proof.
  unfold product. cbn [repeat]. rewrite repeat_cons, product_loop_app.
  reflexivity.
Qed.

Lemma seq_double (m : nat) :
  seq 0 (2 * S m) = seq 0 (2 * m) ++ [2 * m; S (2 * m)].
Proof.
  replace (2 * S m) with (S (S (2 * m))) by lia.
  rewrite !seq_S, <- app_assoc. reflexivity.
Qed.

Lemma extend_binary_digits (k m : nat) :
  flat_map (fun x => map (fun y => x ++ [y]) [false; true])
           (map (binary_digits k) (seq 0 m))
  = map (binary_digits (S k)) (seq 0 (2 * m)).
Proof.
  induction m as [|m IH]; [reflexivity|].
  rewrite seq_S, map_app, flat_map_app, IH, seq_double, map_app.
  f_equal. cbn [map flat_map app Nat.add].
  rewrite !binary_digits_S, Nat.div2_double, Nat.div2_succ_double.
  rewrite Nat.odd_succ, Nat.odd_mul, Nat.even_mul. reflexivity.
Qed.

(** [itertools.product([False, True], repeat=n)] counts from [0] to
    [2^n - 1] in binary, most significant digit first. *)
Lemma product_binary_digits (n : nat) :
  product [false; true] n = map (binary_digits n) (seq 0 (2 ^ n)).
Proof.
  induction n as [|k IH]; [reflexivity|].
  rewrite product_S, IH, extend_binary_digits, Nat.pow_succ_r'. reflexivity.
Qed.

Lemma mapM_ok {A B : Type} (f : A -> result B) (g : A -> B) (l : list A) :
  (forall a, In a l -> f a = Ok (g a)) -> mapM f l = Ok (map g l).
Proof.
  induction l as [|a l IH]; intros H; cbn [mapM map]; [reflexivity|].
  rewrite (H a (or_introl eq_refl)). cbn [bind].
  rewrite IH by (intros; apply H; now right). reflexivity.
Qed.

Lemma assert_variables_ok (vs : list string) :
  variable_names vs -> assert_variables vs = Ok tt.
Proof.
  induction 1 as [|v vs Hv _ IH]; cbn [assert_variables]; [reflexivity|].
  rewrite Hv. exact IH.
Qed.

Lemma dict_set_fresh (k : string) (b : bool) (m : Model) :
  ~ In k (keys m) -> dict_set k b m = m ++ [(k, b)].
Proof.
  induction m as [|[k' b'] m IH]; cbn; intros Hk; [reflexivity|].
  destruct (String.eqb_spec k k') as [-> | _]; [tauto|].
  rewrite IH by tauto. reflexivity.
Qed.

Lemma skipn_nth_error {A : Type} (l : list A) (i : nat) (x : A) :
  nth_error l i = Some x -> skipn i l = x :: skipn (S i) l.
Proof.
  revert i. induction l as [|y l IH]; intros [|i]; cbn; try discriminate.
  - now intros [= ->].
  - intros H. now apply IH.
Qed.

Lemma fill_dict_fresh (vs : list string) :
  forall (i : nat) (assignment : list bool) (cur_dict : Model),
  NoDup vs -> (forall v, In v vs -> ~ In v (keys cur_dict)) ->
  i + length vs <= length assignment ->
  fill_dict (combine (seq i (length vs)) vs) assignment cur_dict
  = Ok (cur_dict ++ combine vs (skipn i assignment)).
Proof.
  induction vs as [|v vs IH]; intros i a cur Hnd Hfresh Hlen.
  - cbn. now rewrite app_nil_r.
  - cbn [length seq combine fill_dict] in *.
    destruct (nth_error a i) as [b|] eqn:Hb.
    2:{ apply nth_error_None in Hb. lia. }
    inversion Hnd as [|? ? Hv Hnd']; subst.
    rewrite dict_set_fresh by (apply Hfresh; now left).
    rewrite IH; [| assumption | | lia].
    + rewrite (skipn_nth_error _ _ _ Hb). cbn [combine].
      now rewrite <- app_assoc.
    + intros w Hw. unfold keys. rewrite map_app, in_app_iff. cbn.
      intros [Hin | [-> | []]]; [|contradiction].
      apply (Hfresh w); [now right | exact Hin].
Qed.

Lemma fill_dict_enumerate (vs : list string) (assignment : list bool) :
  NoDup vs -> length assignment = length vs ->
  fill_dict (enumerate vs) assignment [] = Ok (combine vs assignment).
Proof.
  intros Hnd Hlen. unfold enumerate.
  rewrite fill_dict_fresh; [reflexivity | assumption | auto | lia].
Qed.

(** On distinct variable names, the models are the assignments of
    [itertools.product] zipped with the names, in the same order. *)
Lemma all_models_distinct (vs : list string) :
  NoDup vs -> variable_names vs ->
  all_models vs =
  Ok (map (fun i => combine vs (binary_digits (length vs) i))
          (seq 0 (2 ^ length vs))).
Proof.
  intros Hnd Hvs. unfold all_models.
  rewrite assert_variables_ok by assumption. cbn [bind].
  rewrite product_binary_digits.
  rewrite (mapM_ok (B := Model) _ (combine vs)).
  - now rewrite map_map.
  - intros a Ha. apply in_map_iff in Ha as (i & <- & _).
    apply fill_dict_enumerate; [assumption | apply length_binary_digits].
Qed.

(** C3. For [n] distinct variable names, [all_models] returns [2^n] models;
    the model at index [i] assigns to the [j]-th variable the [j]-th binary
    digit of [i], most significant first, which is the lexicographic order
    with [False] before [True]. On ['p','q'] the models are, in this order,
    FF, FT, TF, TT. *)
Theorem all_models_binary_order (vs : list string) :
  NoDup vs -> variable_names vs ->
  exists models,
    all_models vs = Ok models
    /\ length models = 2 ^ length vs
    /\ models = map (fun i => combine vs (binary_digits (length vs) i))
                    (seq 0 (2 ^ length vs))
    /\ all_models ["p"; "q"]
       = Ok [ [("p", false); ("q", false)]; [("p", false); ("q", true)];
              [("p", true); ("q", false)]; [("p", true); ("q", true)] ].
Proof.
  intros Hnd Hvs. eexists. split; [now apply all_models_distinct|].
  split; [now rewrite length_map, length_seq|].
  split; reflexivity.
Qed.

Lemma all_models_binary_order_witness :
  exists models,
    all_models ["x"; "y1"; "z"] = Ok models
    /\ length models = 2 ^ length ["x"; "y1"; "z"]
    /\ models = map (fun i => combine ["x"; "y1"; "z"]
                                (binary_digits (length ["x"; "y1"; "z"]) i))
                    (seq 0 (2 ^ length ["x"; "y1"; "z"]))
    /\ all_models ["p"; "q"]
       = Ok [ [("p", false); ("q", false)]; [("p", false); ("q", true)];
              [("p", true); ("q", false)]; [("p", true); ("q", true)] ].
Proof.
  apply all_models_binary_order.
  - repeat constructor; cbn; intuition discriminate.
  - repeat constructor.
Defined.

(** C9. On the empty variable list [all_models] returns normally, with
    exactly one model, the empty one. *)
Theorem all_models_empty : all_models [] = Ok [ [] ].
Proof. reflexivity. Qed.

(** C10. [is_variable] raises [IndexError] on the empty string, and returns a
    boolean on every string that has a first character. *)
Theorem is_variable_partial :
  is_variable EmptyString = Raise IndexError
  /\ forall c rest, exists b, is_variable (String c rest) = Ok b.
Proof.
  split; [reflexivity|]. intros c rest. eexists. reflexivity.
Qed.

(** ** Synthesis *)

Lemma assignment_eqb_eq (a b : list bool) :
  assignment_eqb a b = true <-> a = b.
Proof.
  revert b. induction a as [|x a IH]; intros [|y b]; cbn;
    try (split; [discriminate | congruence]); [tauto|].
  rewrite andb_true_iff, IH, Bool.eqb_true_iff.
  split; [intros [-> ->]; reflexivity | intros [= -> ->]; auto].
Qed.

Lemma forallb_ext_in {A : Type} (f g : A -> bool) (l : list A) :
  (forall x, In x l -> f x = g x) -> forallb f l = forallb g l.
Proof.
  induction l as [|x l IH]; intros H; cbn; [reflexivity|].
  rewrite (H x (or_introl eq_refl)), IH; [reflexivity|].
  intros y Hy. apply H. now right.
Qed.

Lemma issubset_incl (a b : list string) :
  incl a b -> issubset a b = true.
Proof.
  intros H. unfold issubset. apply forallb_forall. intros x Hx.
  apply existsb_exists. exists x. split; [now apply H|].
  apply String.eqb_refl.
Qed.

Lemma variable_not_constant (r : string) :
  is_variable r = Ok true -> (r =? "T") = false /\ (r =? "F") = false.
Proof.
  intros H. apply is_variable_inv in H as (c & ds & -> & Hin & _).
  destruct (in_p_z_not_special c Hin) as (_ & _ & Hk).
  split; apply String.eqb_neq; intros E; injection E as -> ->;
    discriminate Hk.
Qed.

Lemma truth_value_variable (v : string) (model : Model) :
  is_variable v = Ok true ->
  truth_value (Atom v) model = truthy (dict_get v model).
Proof.
  intros H. destruct (variable_not_constant v H) as [HT HF].
  cbn [truth_value]. now rewrite HT, HF.
Qed.

Lemma is_model_keys_ok (vs : list string) :
  variable_names vs -> is_model_keys vs = Ok true.
Proof.
  induction 1 as [|v vs Hv _ IH]; cbn [is_model_keys]; [reflexivity|].
  rewrite Hv. exact IH.
Qed.

Lemma keys_combine (vs : list string) (a : list bool) :
  length a = length vs -> keys (combine vs a) = vs.
Proof.
  revert a. induction vs as [|v vs IH]; intros [|x a]; cbn;
    try discriminate; [reflexivity|].
  intros [= H]. unfold keys in IH. now rewrite IH.
Qed.

Lemma literal_spec (v : string) (model : Model) :
  is_variable v = Ok true ->
  well_formed (literal v model) = true
  /\ Formula_variables (literal v model) = Ok [v]
  /\ forall m', truth_value (literal v model) m'
                = Bool.eqb (truthy (dict_get v m')) (truthy (dict_get v model)).
Proof.
  intros Hv. unfold literal.
  assert (Hvars : Formula_variables (Atom v) = Ok [v]).
  { now rewrite (Formula_variables_atom v true). }
  assert (Hwf : well_formed (Atom v) = true).
  { cbn [well_formed]. now rewrite Hv. }
  destruct (truthy (dict_get v model)); cbn [negb].
  - repeat split; auto. intros m'. rewrite truth_value_variable by assumption.
    now destruct (truthy (dict_get v m')).
  - rewrite Formula_variables_unary.
    change (well_formed (Unary "~" (Atom v))) with (well_formed (Atom v)).
    repeat split; auto. intros m'.
    change (truth_value (Unary "~" (Atom v)) m')
      with (negb (truth_value (Atom v) m')).
    rewrite truth_value_variable by assumption.
    now destruct (truthy (dict_get v m')).
Qed.

(** The conjunctive clause of a model holds exactly in the models that agree
    with it on every variable of the list. *)
Lemma synthesize_for_model_helper_spec (vars : list string) (model : Model) :
  vars <> [] -> variable_names vars ->
  exists f,
    _synthesize_for_model_helper vars model = Ok f
    /\ well_formed f = true
    /\ (exists fv, Formula_variables f = Ok fv /\ incl fv vars)
    /\ forall m',
         truth_value f m'
         = forallb (fun v => Bool.eqb (truthy (dict_get v m'))
                                     (truthy (dict_get v model))) vars.
Proof.
  induction vars as [|v0 rest IH]; intros Hne Hvs; [congruence|].
  inversion Hvs as [|? ? Hv0 Hrest]; subst.
  destruct (literal_spec v0 model Hv0) as (Hwf & Hfv & Htv).
  cbn [_synthesize_for_model_helper].
  rewrite (Formula_init_variable _ Hv0). cbn [bind].
  assert (Hlit : (if negb (truthy (dict_get v0 model))
                  then Formula_init "~" (Some (Atom v0)) None
                  else Ok (Atom v0)) = Ok (literal v0 model)).
  { unfold literal. now destruct (negb (truthy (dict_get v0 model))). }
  rewrite Hlit. cbn [bind].
  destruct rest as [|v1 rest'].
  - cbn [length Nat.eqb]. exists (literal v0 model).
    repeat split; auto.
    + exists [v0]. split; [assumption | apply incl_refl].
    + intros m'. cbn [forallb]. now rewrite Htv, andb_true_r.
  - cbn [length Nat.eqb].
    destruct (IH ltac:(discriminate) Hrest)
      as (tail & -> & Hwft & (fv & Hfvt & Hincl) & Htvt).
    cbn [bind]. rewrite Formula_init_binary by reflexivity.
    exists (Binary "&" (literal v0 model) tail). repeat split.
    + cbn [well_formed]. now rewrite Hwf, Hwft.
    + exists ([v0] ++ fv). rewrite Formula_variables_binary by reflexivity.
      rewrite Hfv, Hfvt. split; [reflexivity|].
      apply incl_app; [apply incl_cons; [now left | apply incl_nil_l]|].
      now apply incl_tl.
    + intros m'. cbn [truth_value]. change ("&" =? "&") with true. cbv iota.
      now rewrite Htv, Htvt.
Qed.

Lemma dict_get_head (v : string) (b : bool) (m : Model) :
  dict_get v ((v, b) :: m) = PyBool b.
Proof. cbn. now rewrite String.eqb_refl. Qed.

Lemma dict_get_tail (v w : string) (b : bool) (m : Model) :
  w <> v -> dict_get w ((v, b) :: m) = dict_get w m.
Proof. intros H. cbn. apply String.eqb_neq in H. now rewrite H. Qed.

(** Two assignments to distinct variables agree on every variable exactly
    when they are the same assignment. *)
Lemma agree_assignment_eqb (vs : list string) :
  forall a a', NoDup vs -> length a = length vs -> length a' = length vs ->
  forallb (fun v => Bool.eqb (truthy (dict_get v (combine vs a')))
                              (truthy (dict_get v (combine vs a)))) vs
  = assignment_eqb a' a.
Proof.
  induction vs as [|v vs IH]; intros [|x a] [|x' a'] Hnd Ha Ha';
    try discriminate; [reflexivity|].
  inversion Hnd as [|? ? Hv Hnd']; subst.
  cbn [combine forallb assignment_eqb]. rewrite !dict_get_head.
  cbn [truthy]. f_equal.
  rewrite <- (IH a a') by (auto; cbn in *; lia).
  apply forallb_ext_in. intros w Hw.
  assert (w <> v) by (intros ->; contradiction).
  now rewrite !dict_get_tail.
Qed.

Lemma nonempty_ltb {A : Type} (l : list A) :
  l <> [] -> Nat.ltb 0 (length l) = true.
Proof. destruct l; [congruence | reflexivity]. Qed.

Lemma nonempty_head {A : Type} (l : list A) :
  l <> [] -> exists x, nth_error l 0 = Some x /\ In x l.
Proof. destruct l as [|x l]; [congruence|]. exists x. cbn. auto. Qed.

Section Synthesize.

Variable vs : list string.
Hypothesis vs_nonempty : vs <> [].
Hypothesis vs_distinct : NoDup vs.
Hypothesis vs_names : variable_names vs.

Lemma is_model_combine (a : list bool) :
  length a = length vs -> is_model (combine vs a) = Ok true.
Proof.
  intros Ha. unfold is_model. rewrite keys_combine by assumption.
  now apply is_model_keys_ok.
Qed.

Lemma synthesize_for_model_spec (a : list bool) :
  length a = length vs ->
  exists g,
    _synthesize_for_model (combine vs a) = Ok g
    /\ represents vs (Some g) [a].
Proof.
  intros Ha. unfold _synthesize_for_model.
  rewrite is_model_combine, keys_combine by assumption. cbn [bind assert].
  rewrite (nonempty_ltb vs vs_nonempty). cbn [bind].
  destruct (synthesize_for_model_helper_spec vs (combine vs a)
              vs_nonempty vs_names) as (g & Hg & Hwf & Hfv & Htv).
  exists g. split; [exact Hg|]. repeat split; auto; [discriminate|].
  intros a' Ha'. rewrite Htv, agree_assignment_eqb by assumption.
  cbn [existsb]. now rewrite orb_false_r.
Qed.

Lemma synthesize_loop_spec (assignments : list (list bool)) :
  forall (ts pre : list bool) (cur : option Formula) (sel : list (list bool)),
  length ts = length assignments ->
  (forall a, In a assignments -> length a = length vs) ->
  represents vs cur sel ->
  exists cur',
    synthesize_loop
      (@combine nat Model (seq (length pre) (length assignments))
                (map (combine vs) assignments))
      (pre ++ ts) (is_first_of cur) cur = Ok cur'
    /\ represents vs cur' (sel ++ selected assignments ts).
Proof.
  induction assignments as [|a assignments IH];
    intros ts pre cur sel Hlen Hall Hrep.
  - destruct ts; [|discriminate]. cbn. rewrite app_nil_r. eauto.
  - destruct ts as [|t ts]; [discriminate|]. injection Hlen as Hlen.
    cbn [length seq map combine synthesize_loop selected].
    assert (Hnth : nth_error (pre ++ t :: ts) (length pre) = Some t).
    { rewrite nth_error_app2, Nat.sub_diag by lia. reflexivity. }
    rewrite Hnth.
    assert (Hpre : pre ++ t :: ts = (pre ++ [t]) ++ ts).
    { now rewrite <- app_assoc. }
    assert (Hk : S (length pre) = length (pre ++ [t])).
    { rewrite length_app. cbn. lia. }
    assert (Hall' : forall b, In b assignments -> length b = length vs).
    { intros b Hb. apply Hall. now right. }
    destruct t.
    + destruct (synthesize_for_model_spec a (Hall a (or_introl eq_refl)))
        as (g & Hg & Hne & Hwfg & (fvg & Hfvg & Hig) & Htvg).
      assert (Hsel : sel ++ a :: selected assignments ts
                     = (sel ++ [a]) ++ selected assignments ts).
      { now rewrite <- app_assoc. }
      destruct cur as [f|]; cbn [is_first_of]; rewrite Hg; cbn [bind].
      * destruct Hrep as (Hnef & Hwff & (fvf & Hfvf & Hif) & Htvf).
        rewrite Formula_init_binary by reflexivity. cbn [bind].
        rewrite Hpre, Hk, Hsel.
        apply (IH ts (pre ++ [true]) (Some (Binary "|" f g))); auto.
        repeat split.
        -- destruct sel; discriminate.
        -- cbn [well_formed]. now rewrite Hwff, Hwfg.
        -- exists (fvf ++ fvg).
           rewrite Formula_variables_binary by reflexivity.
           rewrite Hfvf, Hfvg. split; [reflexivity | now apply incl_app].
        -- intros a' Ha'. cbn [truth_value].
           change ("|" =? "&") with false. change ("|" =? "|") with true.
           cbv iota. rewrite Htvf, Htvg, existsb_app by assumption.
           reflexivity.
      * cbn in Hrep. subst sel. rewrite Hpre, Hk, Hsel.
        apply (IH ts (pre ++ [true]) (Some g)); auto.
        cbn [app]. repeat split; eauto.
    + rewrite Hpre, Hk.
      apply (IH ts (pre ++ [false]) cur sel); auto.
Qed.

(** With distinct assignments, membership among the selected ones reads the
    truth table back. *)
Lemma selected_table (assignments : list (list bool)) :
  forall ts, NoDup assignments -> length ts = length assignments ->
  map (fun a => existsb (assignment_eqb a) (selected assignments ts))
      assignments = ts.
Proof.
  induction assignments as [|a assignments IH]; intros [|t ts] Hnd Hlen;
    try discriminate; [reflexivity|].
  inversion Hnd as [|? ? Ha Hnd']; subst. injection Hlen as Hlen.
  assert (Hout : forall ts', existsb (assignment_eqb a)
                               (selected assignments ts') = false).
  { intros ts'. apply not_true_is_false. intros H.
    apply existsb_exists in H as (b & Hb & E).
    apply assignment_eqb_eq in E. subst b. apply Ha.
    clear -Hb. revert ts' Hb.
    induction assignments as [|c cs IHc]; intros [|t' ts'] Hb; cbn in Hb;
      try contradiction.
    destruct t'; [destruct Hb as [-> | Hb]; [now left|]|];
      right; eapply IHc; eassumption. }
  cbn [map selected]. f_equal.
  - destruct t; cbn [existsb]; [|apply Hout].
    assert (E : assignment_eqb a a = true) by now apply assignment_eqb_eq.
    now rewrite E.
  - transitivity
      (map (fun b => existsb (assignment_eqb b) (selected assignments ts))
           assignments); [|now apply IH].
    apply map_ext_in. intros b Hb.
    destruct t; [|reflexivity]. cbn [existsb].
    assert (E : assignment_eqb b a = false).
    { apply not_true_is_false. intros E. apply assignment_eqb_eq in E.
      subst b. contradiction. }
    now rewrite E.
Qed.

Lemma binary_digits_NoDup (n : nat) :
  NoDup (map (binary_digits n) (seq 0 (2 ^ n))).
Proof.
  apply NoDup_map_NoDup_ForallPairs; [|apply seq_NoDup].
  intros i j Hi Hj. apply in_seq in Hi, Hj.
  apply binary_digits_inj; lia.
Qed.

(** [synthesize] returns a formula over [vs] that holds exactly in the
    models whose entry of the table is [True]; with no such entry it is
    the contradiction on the first variable. *)
Lemma synthesize_spec (values : list bool) :
  length values = 2 ^ length vs ->
  let assignments := map (binary_digits (length vs)) (seq 0 (2 ^ length vs)) in
  exists f,
    synthesize vs values = Ok f
    /\ well_formed f = true
    /\ (exists fv, Formula_variables f = Ok fv /\ incl fv vs)
    /\ (forall a', length a' = length vs ->
          truth_value f (combine vs a')
          = existsb (assignment_eqb a') (selected assignments values))
    /\ (selected assignments values = [] ->
        exists v0, nth_error vs 0 = Some v0
                   /\ f = Binary "&" (Atom v0) (Unary "~" (Atom v0))).
Proof.
  intros Hlen assignments. unfold synthesize.
  rewrite (nonempty_ltb vs vs_nonempty). cbn [assert bind].
  rewrite all_models_distinct by assumption. cbn [bind]. unfold enumerate.
  rewrite <- map_map with (g := combine vs). fold assignments.
  rewrite length_map.
  destruct (synthesize_loop_spec assignments values [] None [])
    as (cur' & Hloop & Hrep).
  { unfold assignments. now rewrite length_map, length_seq. }
  { intros a Ha. apply in_map_iff in Ha as (i & <- & _).
    apply length_binary_digits. }
  { reflexivity. }
  cbn [length app is_first_of] in Hloop, Hrep.
  destruct cur' as [f|].
  - destruct Hrep as (Hne & Hwf & Hfv & Htv). exists f.
    rewrite Hloop. cbn [bind].
    repeat split; auto. intros Hsel. contradiction.
  - cbn in Hrep.
    destruct (nonempty_head vs vs_nonempty) as (v0 & Hhd & Hin).
    assert (Hv0 : is_variable v0 = Ok true).
    { unfold variable_names in vs_names.
      rewrite Forall_forall in vs_names. now apply vs_names. }
    exists (Binary "&" (Atom v0) (Unary "~" (Atom v0))).
    rewrite Hloop. cbn [bind]. rewrite Hhd.
    rewrite (Formula_init_variable _ Hv0). cbn [bind].
    rewrite Formula_init_unary. cbn [bind].
    rewrite Formula_init_binary by reflexivity.
    repeat split.
    + cbn [well_formed]. rewrite Hv0. reflexivity.
    + exists ([v0] ++ [v0]).
      rewrite Formula_variables_binary, Formula_variables_unary by reflexivity.
      rewrite (Formula_variables_atom v0 true) by auto. split; [reflexivity|].
      intros x [<- | [<- | []]]; assumption.
    + intros a' Ha'. rewrite Hrep. cbn [existsb].
      change (truth_value (Binary "&" (Atom v0) (Unary "~" (Atom v0)))
                (combine vs a'))
        with (truth_value (Atom v0) (combine vs a')
              && negb (truth_value (Atom v0) (combine vs a'))).
      apply andb_negb_r.
    + intros _. exists v0. split; reflexivity.
Qed.

End Synthesize.

Lemma selected_none (assignments : list (list bool)) :
  forall ts, forallb negb ts = true -> selected assignments ts = [].
Proof.
  induction assignments as [|a assignments IH]; intros [|t ts] H;
    try reflexivity.
  cbn in H. apply andb_true_iff in H as [Ht Hts].
  destruct t; [discriminate|]. cbn. now apply IH.
Qed.

Lemma covers_combine (vs : list string) (a : list bool) (f : Formula)
  (fv : list string) :
  length a = length vs -> Formula_variables f = Ok fv -> incl fv vs ->
  covers (combine vs a) f = true.
Proof.
  intros Ha Hfv Hincl. unfold covers. rewrite Hfv, keys_combine by assumption.
  now apply issubset_incl.
Qed.

(** C1 (amended). For a non-empty list of distinct variable names and a truth
    table with one entry per model, [synthesize] returns a formula whose
    truth values over [all_models] of the list are the table itself. When no
    entry is [True] the formula is the contradiction [(v0&~v0)] on the first
    variable, false in every model. *)
Theorem synthesize_truth_table (vs : list string) (values : list bool) :
  vs <> [] -> NoDup vs -> variable_names vs ->
  length values = 2 ^ length vs ->
  exists f models,
    synthesize vs values = Ok f
    /\ all_models vs = Ok models
    /\ truth_values f models = Ok (map PyBool values)
    /\ (forallb negb values = true ->
        exists v0, nth_error vs 0 = Some v0
                   /\ f = Binary "&" (Atom v0) (Unary "~" (Atom v0))).
Proof.
  intros Hne Hnd Hnames Hlen.
  destruct (synthesize_spec vs Hne Hnd Hnames values Hlen)
    as (f & Hf & Hwf & (fv & Hfv & Hincl) & Htv & Hnone).
  set (assignments := map (binary_digits (length vs)) (seq 0 (2 ^ length vs)))
    in *.
  exists f, (map (combine vs) assignments). split; [exact Hf|]. split.
  { rewrite all_models_distinct by assumption. unfold assignments.
    now rewrite map_map. }
  split.
  - unfold truth_values.
    rewrite (mapM_ok _ (fun m => PyBool (truth_value f m))).
    + assert (Hvals : map (fun a => truth_value f (combine vs a)) assignments
                      = values).
      { transitivity
          (map (fun a => existsb (assignment_eqb a)
                           (selected assignments values)) assignments).
        - apply map_ext_in. intros a Ha. apply Htv.
          apply in_map_iff in Ha as (i & <- & _). apply length_binary_digits.
        - apply selected_table; [apply binary_digits_NoDup|].
          unfold assignments. now rewrite length_map, length_seq. }
      rewrite <- Hvals. now rewrite !map_map.
    + intros m Hm. apply in_map_iff in Hm as (a & <- & Ha).
      assert (Hla : length a = length vs).
      { apply in_map_iff in Ha as (i & <- & _). apply length_binary_digits. }
      apply evaluate_truth_value; [assumption | |].
      * now apply is_model_combine.
      * now apply covers_combine with (fv := fv).
  - intros Hall. apply Hnone. now apply selected_none.
Qed.

Lemma synthesize_truth_table_witness :
  exists f models,
    synthesize ["p"; "q"] [true; false; false; true] = Ok f
    /\ all_models ["p"; "q"] = Ok models
    /\ truth_values f models = Ok (map PyBool [true; false; false; true])
    /\ (forallb negb [true; false; false; true] = true ->
        exists v0, nth_error ["p"; "q"] 0 = Some v0
                   /\ f = Binary "&" (Atom v0) (Unary "~" (Atom v0))).
Proof.
  apply synthesize_truth_table.
  - discriminate.
  - repeat constructor; cbn; intuition discriminate.
  - repeat constructor.
  - reflexivity.
Defined.

(** C1 as stated fails when a name repeats. On ['p','p'] the four models
    collapse to p:False, p:True, p:False, p:True; for the table
    True, False, False, False the synthesized formula is [~p], whose truth
    values over those models are True, False, True, False. *)
Lemma synthesize_repeated_variable :
  synthesize ["p"; "p"] [true; false; false; false] = Ok (Unary "~" (Atom "p"))
  /\ all_models ["p"; "p"]
     = Ok [ [("p", false)]; [("p", true)]; [("p", false)]; [("p", true)] ]
  /\ truth_values (Unary "~" (Atom "p"))
       [ [("p", false)]; [("p", true)]; [("p", false)]; [("p", true)] ]
     = Ok [PyBool true; PyBool false; PyBool true; PyBool false]
  /\ [PyBool true; PyBool false; PyBool true; PyBool false]
     <> map PyBool [true; false; false; false].
Proof.
  repeat split; try reflexivity. discriminate.
Qed.

(** ** The unimplemented functions *)

(** C5. [substitute_operators] never returns a formula: it returns [None]
    once its assertions pass. On the formula parsed from [((x&y)&~z)] and the
    map sending [&] to the formula parsed from [~(~p|~q)], the result is
    [None], not a formula printed as [~(~~(~x|~y)|~~z)]. *)
Theorem substitute_operators_returns_None :
  (forall self substitution_map g,
      substitute_operators self substitution_map <> Ok (Some g))
  /\ exists f t,
       parse "((x&y)&~z)" = Ok (Some f)
       /\ parse "~(~p|~q)" = Ok (Some t)
       /\ substitute_operators f [("&", t)] = Ok None.
Proof.
  split.
  - intros self m g. unfold substitute_operators.
    destruct (substitute_operators_checks m); cbn; discriminate.
  - eexists _, _. repeat split; reflexivity.
Qed.

(** C6. [substitute_variables] never returns a formula: it returns [None]
    once its assertions pass. On [((p->p)|r)] with p mapped to [(q&r)] and r
    to [p], the example of its docstring, the result is [None]. *)
Theorem substitute_variables_returns_None :
  (forall self substitution_map g,
      substitute_variables self substitution_map <> Ok (Some g))
  /\ exists f a b,
       parse "((p->p)|r)" = Ok (Some f)
       /\ parse "(q&r)" = Ok (Some a)
       /\ parse "p" = Ok (Some b)
       /\ substitute_variables f [("p", a); ("r", b)] = Ok None.
Proof.
  split.
  - intros self m g. unfold substitute_variables.
    destruct (substitute_variables_checks (map fst m)); cbn; discriminate.
  - eexists _, _, _. repeat split; reflexivity.
Qed.

(** C7. [evaluate_inference] never returns a boolean: it returns [None] on
    every model that passes its assertion. On the rule with assumption [p]
    and conclusion [q] and the model p:False, q:False, where the assumption
    is false, the result is [None], not [True]. *)
Theorem evaluate_inference_returns_None :
  (forall rule model b, evaluate_inference rule model <> Ok (PyBool b))
  /\ evaluate_inference {| assumptions := [Atom "p"]; conclusion := Atom "q" |}
                        [("p", false); ("q", false)]
     = Ok PyNone.
Proof.
  split; [|reflexivity].
  intros rule model b. unfold evaluate_inference.
  destruct (is_model model) as [[|]|]; cbn; discriminate.
Qed.

(** * Further properties of the parser *)


Lemma is_operator_not_variable (s : string) :
  is_operator s = true -> is_variable s = Ok false.
Proof.
  unfold is_operator, is_constant, is_unary, is_binary.
  rewrite !orb_true_iff, !String.eqb_eq.
  intros [[[-> | ->] | ->] | [[-> | ->] | ->]]; reflexivity.
Qed.

(** X2. The token classes are pairwise disjoint: no string is both a variable
    name and a constant or operator, and no string is in two of the classes
    constant, unary operator, binary operator. *)
Theorem token_classes_disjoint (s : string) :
  ~ (is_variable s = Ok true /\ is_operator s = true)
  /\ is_constant s && is_unary s = false
  /\ is_constant s && is_binary s = false
  /\ is_unary s && is_binary s = false.
Proof.
  split.
  - intros [Hv Ho]. apply is_operator_not_variable in Ho. congruence.
  - unfold is_constant, is_unary, is_binary.
    repeat split;
      destruct (String.eqb_spec s "T"), (String.eqb_spec s "F"),
        (String.eqb_spec s "~"), (String.eqb_spec s "&"),
        (String.eqb_spec s "|"), (String.eqb_spec s "->");
      subst; try reflexivity; discriminate.
Qed.

Lemma parse_operator_inv (s op suf : string) :
  parse_operator s = (Some op, suf) ->
  is_binary op = true /\ s = (op ++ suf)%string.
Proof.
  destruct s as [|c s]; [discriminate|]. unfold parse_operator.
  destruct (c =? "-")%char eqn:Hc.
  - destruct s as [|d s]; [discriminate|].
    change (String.get 1 (String c (String d s))) with (Some d).
    cbv beta iota. destruct (d =? ">")%char eqn:Hd; [|discriminate].
    apply Ascii.eqb_eq in Hc, Hd. subst c d. cbn. intros [= <- <-]. auto.
  - destruct (is_binary (String c EmptyString)) eqn:Hb; [|discriminate].
    cbn. intros [= <- <-]. auto.
Qed.

(** X3. [parse_operator] returns an operator exactly when the string starts
    with one of the three binary operators, and then returns that operator
    and the rest of the string. *)
Theorem parse_operator_exact (s op suf : string) :
  parse_operator s = (Some op, suf) <->
  is_binary op = true /\ s = (op ++ suf)%string.
Proof.
  split; [apply parse_operator_inv|].
  intros [Hop ->]. now apply parse_operator_binary.
Qed.

Lemma parse_variable_loop_inv (rest : string) :
  forall tok o suf,
  is_variable tok = Ok true ->
  parse_variable_loop tok rest = Ok (o, suf) ->
  exists ds,
    o = Some (Atom (tok ++ ds)%string)
    /\ rest = (ds ++ suf)%string
    /\ all_digits ds = true
    /\ starts_with_digit suf = false.
Proof.
  induction rest as [|c rest IH]; intros tok o suf Htok; cbn [parse_variable_loop].
  - rewrite (Formula_init_variable _ Htok). cbn [bind]. intros [= <- <-].
    exists EmptyString. rewrite append_nil_r. auto.
  - destruct (isdigit_char c) eqn:Hc.
    + intros H. apply IH in H; [|now apply is_variable_snoc].
      destruct H as (ds & -> & -> & Hds & Hsuf).
      exists (String c ds). rewrite append_assoc. cbn. rewrite Hc, Hds. auto.
    + rewrite (Formula_init_variable _ Htok). cbn [bind]. intros [= <- <-].
      exists EmptyString. rewrite append_nil_r. cbn. auto.
Qed.

Lemma repr_atom (r : string) :
  well_formed (Atom r) = true -> repr (Atom r) = Ok r.
Proof.
  cbn [well_formed repr]. destruct (is_variable r) as [v|] eqn:Hv;
    [|discriminate].
  intros Hc. now apply by_root_leaf with (v := v).
Qed.

(** What a successful [_parse_prefix] returns: a well-formed formula whose
    text, followed by the returned suffix, is the input. *)
Lemma parse_prefix_fuel_sound (n : nat) :
  forall s f suf,
  parse_prefix_fuel n s = Ok (Some f, suf) ->
  well_formed f = true
  /\ (exists t, repr f = Ok t /\ s = (t ++ suf)%string)
  /\ (ends_with_variable f = true -> starts_with_digit suf = false).
Proof.
  induction n as [|n IH]; intros s f suf; [discriminate|].
  destruct s as [|c rest]; [discriminate|]. cbn [parse_prefix_fuel].
  destruct (String c EmptyString =? "(") eqn:Hparen.
  - apply String.eqb_eq in Hparen. injection Hparen as ->.
    destruct (parse_prefix_fuel n rest) as [[[f1|] suf1]|] eqn:H1;
      cbn [bind]; try discriminate.
    destruct (parse_operator suf1) as [[op|] suf2] eqn:Hop; try discriminate.
    destruct (parse_prefix_fuel n suf2) as [[[f2|] suf3]|] eqn:H2;
      cbn [bind]; try discriminate.
    destruct suf3 as [|d suf4]; [discriminate|].
    destruct (d =? ")")%char eqn:Hd; [|discriminate].
    apply Ascii.eqb_eq in Hd. subst d.
    apply parse_operator_inv in Hop as [Hop ->].
    rewrite Formula_init_binary by assumption. cbn [bind].
    intros [= <- <-].
    destruct (IH _ _ _ H1) as (Hwf1 & (t1 & Ht1 & ->) & _).
    destruct (IH _ _ _ H2) as (Hwf2 & (t2 & Ht2 & E2) & _).
    split; [cbn [well_formed]; now rewrite Hop, Hwf1, Hwf2|].
    split; [|discriminate].
    exists ("(" ++ t1 ++ op ++ t2 ++ ")")%string. cbn [repr].
    rewrite by_root_binary, Ht1, Ht2 by assumption. split; [reflexivity|].
    subst suf2. cbn [String.append]. f_equal.
    now rewrite !append_assoc.
  - rewrite is_variable_char. cbn [bind].
    destruct (in_p_z c) eqn:Hv.
    + unfold parse_variable. rewrite is_variable_char, Hv. cbn [bind].
      intros H. apply parse_variable_loop_inv in H;
        [|now rewrite is_variable_char, Hv].
      destruct H as (ds & [= ->] & -> & Hds & Hsuf).
      cbn [String.append].
      assert (Hvar : is_variable (String c ds) = Ok true)
        by now apply is_variable_intro.
      assert (Hwf : well_formed (Atom (String c ds)) = true).
      { cbn [well_formed]. now rewrite Hvar. }
      split; [exact Hwf|]. split; [|auto].
      exists (String c ds). split; [now apply repr_atom | reflexivity].
    + destruct (is_constant (String c EmptyString)) eqn:Hc.
      * rewrite (Formula_init_atom _ false);
          [|now rewrite is_variable_char, Hv | exact Hc].
        cbn [bind]. intros [= <- <-].
        assert (Hwf : well_formed (Atom (String c EmptyString)) = true).
        { cbn [well_formed]. now rewrite is_variable_char, Hv. }
        split; [exact Hwf|]. split.
        -- exists (String c EmptyString).
           split; [now apply repr_atom | reflexivity].
        -- cbn [ends_with_variable]. rewrite is_variable_char, Hv.
           discriminate.
      * destruct (is_unary (String c EmptyString)) eqn:Hu; [|discriminate].
        apply is_unary_inv in Hu. injection Hu as ->.
        destruct (parse_prefix_fuel n rest) as [[[f1|] suf1]|] eqn:H1;
          cbn [bind]; try discriminate.
        rewrite Formula_init_unary. cbn [bind]. intros [= <- <-].
        destruct (IH _ _ _ H1) as (Hwf1 & (t1 & Ht1 & ->) & Hend).
        split; [exact Hwf1|]. split; [|exact Hend].
        exists ("~" ++ t1)%string. cbn [repr].
        rewrite by_root_unary, Ht1. split; reflexivity.
Qed.

(** X4. When [_parse_prefix] succeeds, the formula it returns is well formed
    and the input is exactly that formula's string representation followed
    by the returned suffix. *)
Theorem parse_prefix_decomposes (s : string) (f : Formula) (suf : string) :
  _parse_prefix s = Ok (Some f, suf) ->
  well_formed f = true
  /\ exists t, repr f = Ok t /\ s = (t ++ suf)%string.
Proof.
  intros H. apply parse_prefix_fuel_sound in H as (Hwf & Ht & _). auto.
Qed.

Lemma parse_prefix_decomposes_witness :
  well_formed (Unary "~" (Atom "x12")) = true
  /\ exists t, repr (Unary "~" (Atom "x12")) = Ok t
               /\ "~x12&q)" = (t ++ "&q)")%string.
Proof.
  apply (parse_prefix_decomposes "~x12&q)" (Unary "~" (Atom "x12")) "&q)").
  reflexivity.
Defined.

(** X5. A variable name is consumed whole: when the parsed prefix is a
    variable, or a variable under negations, the returned suffix does not
    start with a digit. *)
Theorem parse_prefix_variable_greedy (s : string) (f : Formula) (suf : string) :
  _parse_prefix s = Ok (Some f, suf) ->
  ends_with_variable f = true ->
  starts_with_digit suf = false.
Proof.
  intros H. apply parse_prefix_fuel_sound in H as (_ & _ & Hend). exact Hend.
Qed.

Lemma parse_prefix_variable_greedy_witness :
  starts_with_digit "|y)" = false.
Proof.
  apply (parse_prefix_variable_greedy "~x12|y)" (Unary "~" (Atom "x12")) "|y)");
    reflexivity.
Defined.

(** X6. [parse] either raises [AssertionError], when [is_formula] rejects the
    string, or returns a well-formed formula whose string representation is
    the given string. *)
Theorem parse_inverts_repr (s : string) :
  (is_formula s = Ok false /\ parse s = Raise AssertionError)
  \/ (is_formula s = Ok true
      /\ exists f, parse s = Ok (Some f)
                   /\ well_formed f = true /\ repr f = Ok s).
Proof.
  destruct (parse_prefix_total s) as (o & suf & Hp & Ho).
  unfold parse, is_formula. rewrite Hp. cbn [bind snd fst].
  destruct (String.eqb_spec suf EmptyString) as [-> | Hne]; cbn [assert bind].
  - right. split; [reflexivity|].
    destruct o as [f|]; [|now elim Ho].
    destruct (parse_prefix_fuel_sound _ _ _ _ Hp) as (Hwf & (t & Ht & ->) & _).
    exists f. rewrite append_nil_r. auto.
  - left. auto.
Qed.



(** X8. On well-formed formulas [__eq__], the comparison of the string
    representations, is structural equality: two formulas print alike only
    if they are the same tree. *)
Theorem Formula_eq_structural (f g : Formula) :
  well_formed f = true -> well_formed g = true ->
  exists b, Formula_eq f g = Ok b /\ (b = true <-> f = g).
Proof.
  intros Hf Hg.
  destruct (parse_prefix_fuel_repr f Hf) as (s & Hs & Hls & Hps).
  destruct (parse_prefix_fuel_repr g Hg) as (t & Ht & Hlt & Hpt).
  unfold Formula_eq. rewrite Hs, Ht. cbn [bind].
  eexists. split; [reflexivity|]. split.
  - intros E. apply String.eqb_eq in E. subst t.
    specialize (Hps (String.length s) EmptyString Hls eq_refl).
    specialize (Hpt (String.length s) EmptyString Hlt eq_refl).
    congruence.
  - intros <-. rewrite Hs in Ht. injection Ht as <-. apply String.eqb_refl.
Qed.

Lemma Formula_eq_structural_witness :
  exists b,
    Formula_eq (Binary "|" (Atom "p") (Atom "q")) (Binary "|" (Atom "p") (Atom "q1"))
    = Ok b
    /\ (b = true <->
        Binary "|" (Atom "p") (Atom "q") = Binary "|" (Atom "p") (Atom "q1")).
Proof.
  apply Formula_eq_structural; reflexivity.
Defined.

(** * Further properties of formulas and evaluation *)

Lemma Formula_operators_unary (g : Formula) :
  Formula_operators (Unary "~" g)
  = s <- Formula_operators g ;; Ok (["~"] ++ s).
Proof. reflexivity. Qed.

Lemma Formula_operators_binary (r : string) (g h : Formula) :
  is_binary r = true ->
  Formula_operators (Binary r g h) =
  s1 <- Formula_operators g ;; s2 <- Formula_operators h ;;
  Ok ([r] ++ (s1 ++ s2)).
Proof.
  intros H. destruct (is_binary_inv _ H) as [-> | [-> | ->]]; reflexivity.
Qed.

Lemma Formula_variables_names (f : Formula) (fv : list string) :
  well_formed f = true -> Formula_variables f = Ok fv -> variable_names fv.
Proof.
  revert fv. induction f as [r | r g IHg | r g IHg h IHh];
    cbn [well_formed]; intros fv Hwf.
  - destruct (is_variable r) as [v|] eqn:Hv; [|discriminate].
    rewrite (Formula_variables_atom r v) by assumption. intros [= <-].
    unfold variable_names.
    destruct v; [constructor; [exact Hv | constructor] | constructor].
  - apply andb_true_iff in Hwf as [Hr Hg]. apply is_unary_inv in Hr. subst r.
    rewrite Formula_variables_unary. now apply IHg.
  - apply andb_true_iff in Hwf as [Hwf Hh].
    apply andb_true_iff in Hwf as [Hr Hg].
    rewrite Formula_variables_binary by assumption.
    destruct (Formula_variables g) as [s1|] eqn:H1; [|discriminate].
    destruct (Formula_variables h) as [s2|] eqn:H2; [|discriminate].
    cbn [bind]. intros [= <-]. apply Forall_app.
    split; [now apply IHg | now apply IHh].
Qed.

(** X9. On a well-formed formula [variables] and [operators] both return:
    every name in [variables] passes [is_variable], every symbol in
    [operators] is a constant, the unary operator or a binary operator, and
    so no symbol is in both. *)
Theorem variables_operators_classes (f : Formula) :
  well_formed f = true ->
  exists fv ops,
    Formula_variables f = Ok fv
    /\ Formula_operators f = Ok ops
    /\ variable_names fv
    /\ Forall (fun op => is_operator op = true) ops
    /\ forall x, In x fv -> ~ In x ops.
Proof.
  intros Hwf.
  destruct (Formula_variables_total f Hwf) as (fv & Hfv).
  assert (Hops : exists ops, Formula_operators f = Ok ops
                             /\ Forall (fun op => is_operator op = true) ops).
  { clear fv Hfv. induction f as [r | r g IHg | r g IHg h IHh];
      cbn [well_formed] in Hwf.
    - destruct (is_variable r) as [v|] eqn:Hv; [|discriminate].
      cbn [Formula_operators root]. rewrite Hv. cbn [bind].
      destruct v; [eexists; split; [reflexivity | constructor]|].
      cbn [orb] in Hwf. rewrite Hwf. eexists. split; [reflexivity|].
      repeat constructor. unfold is_operator. now rewrite Hwf.
    - apply andb_true_iff in Hwf as [Hr Hg]. apply is_unary_inv in Hr.
      subst r. rewrite Formula_operators_unary.
      destruct (IHg Hg) as (ops & -> & Hall). cbn [bind].
      eexists. split; [reflexivity|]. constructor; [reflexivity | exact Hall].
    - apply andb_true_iff in Hwf as [Hwf Hh].
      apply andb_true_iff in Hwf as [Hr Hg].
      rewrite Formula_operators_binary by assumption.
      destruct (IHg Hg) as (o1 & -> & H1). destruct (IHh Hh) as (o2 & -> & H2).
      cbn [bind]. eexists. split; [reflexivity|].
      constructor; [|now apply Forall_app].
      unfold is_operator. rewrite Hr. now rewrite orb_true_r. }
  destruct Hops as (ops & Hops & Hall).
  pose proof (Formula_variables_names f fv Hwf Hfv) as Hnames.
  exists fv, ops. repeat split; auto.
  intros x Hx Hxo. unfold variable_names in Hnames.
  rewrite Forall_forall in Hnames, Hall.
  pose proof (is_operator_not_variable x (Hall x Hxo)) as Hno.
  rewrite (Hnames x Hx) in Hno. discriminate.
Qed.

Lemma variables_operators_classes_witness :
  exists fv ops,
    Formula_variables (Binary "->" (Atom "T") (Unary "~" (Atom "q1"))) = Ok fv
    /\ Formula_operators (Binary "->" (Atom "T") (Unary "~" (Atom "q1"))) = Ok ops
    /\ variable_names fv
    /\ Forall (fun op => is_operator op = true) ops
    /\ forall x, In x fv -> ~ In x ops.
Proof.
  apply variables_operators_classes. reflexivity.
Defined.

Lemma existsb_eqb_In (x : string) (l : list string) :
  existsb (String.eqb x) l = true <-> In x l.
Proof.
  rewrite existsb_exists. split.
  - intros (y & Hy & E). apply String.eqb_eq in E. now subst.
  - intros H. exists x. split; [exact H | apply String.eqb_refl].
Qed.

Lemma issubset_In (a b : list string) :
  issubset a b = true <-> incl a b.
Proof.
  unfold issubset. rewrite forallb_forall. unfold incl.
  split; intros H x Hx; apply existsb_eqb_In; auto.
Qed.

(** The value of a formula depends on the model only through the values of
    the formula's variables. *)
Lemma truth_value_agree (f : Formula) (m m' : Model) :
  well_formed f = true ->
  forall fv, Formula_variables f = Ok fv -> agree_on fv m m' ->
  truth_value f m = truth_value f m'.
Proof.
  induction f as [r | r g IHg | r g IHg h IHh]; cbn [well_formed];
    intros Hwf fv.
  - destruct (is_variable r) as [v|] eqn:Hv; [|discriminate].
    rewrite (Formula_variables_atom r v) by assumption. intros [= <-] Hag.
    destruct v.
    + rewrite !truth_value_variable by assumption.
      now rewrite (Hag r (or_introl eq_refl)).
    + cbn in Hwf. unfold is_constant in Hwf.
      apply orb_true_iff in Hwf as [H | H]; apply String.eqb_eq in H;
        subst r; reflexivity.
  - apply andb_true_iff in Hwf as [Hr Hg]. apply is_unary_inv in Hr. subst r.
    rewrite Formula_variables_unary. intros Hfv Hag. cbn [truth_value].
    now rewrite (IHg Hg fv Hfv Hag).
  - apply andb_true_iff in Hwf as [Hwf Hh].
    apply andb_true_iff in Hwf as [Hr Hg].
    rewrite Formula_variables_binary by assumption.
    destruct (Formula_variables g) as [s1|] eqn:H1; [|discriminate].
    destruct (Formula_variables h) as [s2|] eqn:H2; [|discriminate].
    cbn [bind]. intros [= <-] Hag. cbn [truth_value].
    rewrite (IHg Hg s1 eq_refl), (IHh Hh s2 eq_refl); [reflexivity | |];
      intros x Hx; apply Hag, in_app_iff; auto.
Qed.

(** X10. [evaluate] depends on the model only through the formula's
    variables: two models that cover a well-formed formula and agree on its
    variables give the same result, whatever else they contain and in
    whatever order. *)
Theorem evaluate_agree (f : Formula) (m m' : Model) (fv : list string) :
  well_formed f = true ->
  is_model m = Ok true -> is_model m' = Ok true ->
  Formula_variables f = Ok fv ->
  incl fv (keys m) -> agree_on fv m m' -> incl fv (keys m') ->
  evaluate f m = evaluate f m'.
Proof.
  intros Hwf Hm Hm' Hfv Hin Hag Hin'.
  rewrite !evaluate_truth_value; auto.
  - now rewrite (truth_value_agree f m m' Hwf fv Hfv Hag).
  - unfold covers. rewrite Hfv. now apply issubset_In.
  - unfold covers. rewrite Hfv. now apply issubset_In.
Qed.

Lemma evaluate_agree_witness :
  evaluate (Binary "&" (Atom "p") (Atom "q")) [("p", true); ("q", false)]
  = evaluate (Binary "&" (Atom "p") (Atom "q"))
             [("r", true); ("q", false); ("p", true)].
Proof.
  apply (evaluate_agree _ _ _ ["p"; "q"]); try reflexivity.
  - intros x [<- | [<- | []]]; cbn; auto.
  - intros x [<- | [<- | []]]; reflexivity.
  - intros x [<- | [<- | []]]; cbn; auto.
Defined.



(** X12. [truth_values] returns one truth value per model, in the order of
    the models: over models that cover a well-formed formula the result is
    the list of the formula's values in the models. *)
Theorem truth_values_pointwise (f : Formula) (models : list Model) :
  well_formed f = true ->
  Forall (fun m => is_model m = Ok true /\ covers m f = true) models ->
  truth_values f models = Ok (map (fun m => PyBool (truth_value f m)) models).
Proof.
  intros Hwf Hall. unfold truth_values. apply mapM_ok.
  intros m Hm. rewrite Forall_forall in Hall. destruct (Hall m Hm).
  now apply evaluate_truth_value.
Qed.

Lemma truth_values_pointwise_witness :
  truth_values (Unary "~" (Binary "&" (Atom "p") (Atom "q76")))
    [[("p", false); ("q76", true)]; [("q76", true); ("p", true)]]
  = Ok (map (fun m => PyBool (truth_value
                                (Unary "~" (Binary "&" (Atom "p") (Atom "q76"))) m))
            [[("p", false); ("q76", true)]; [("q76", true); ("p", true)]]).
Proof.
  apply truth_values_pointwise; [reflexivity|].
  repeat constructor.
Defined.

(** * Further properties of the model enumeration *)

Lemma dict_set_keys (k : string) (b : bool) (m : Model) (x : string) :
  In x (keys (dict_set k b m)) <-> x = k \/ In x (keys m).
Proof.
  induction m as [|[k' b'] m IH]; cbn.
  - intuition.
  - destruct (String.eqb_spec k k') as [-> | Hne]; cbn.
    + intuition.
    + fold (keys (dict_set k b m)). fold (keys m). rewrite IH. intuition.
Qed.

Lemma fill_dict_keys (ivs : list (nat * string)) (assignment : list bool) :
  forall cur_dict,
  (forall i v, In (i, v) ivs -> i < length assignment) ->
  exists m,
    fill_dict ivs assignment cur_dict = Ok m
    /\ forall x, In x (keys m) <-> In x (keys cur_dict) \/ In x (map snd ivs).
Proof.
  induction ivs as [|[i v] ivs IH]; intros cur Hrange; cbn [fill_dict].
  - exists cur. split; [reflexivity|]. cbn. intuition.
  - destruct (nth_error assignment i) as [b|] eqn:Hb.
    2:{ apply nth_error_None in Hb.
        specialize (Hrange i v (or_introl eq_refl)). lia. }
    destruct (IH (dict_set v b cur)) as (m & Hm & Hkeys).
    { intros j w Hj. apply (Hrange j w). now right. }
    exists m. split; [exact Hm|]. intros x. rewrite Hkeys, dict_set_keys.
    cbn. intuition.
Qed.

Lemma enumerate_range {A : Type} (l : list A) (i : nat) (v : A) :
  In (i, v) (enumerate l) -> i < length l.
Proof.
  unfold enumerate. intros H. apply in_combine_l in H. apply in_seq in H. lia.
Qed.

Lemma map_snd_enumerate {A : Type} (l : list A) :
  map snd (enumerate l) = l.
Proof.
  unfold enumerate. generalize 0.
  induction l as [|x l IH]; intros k; cbn; [reflexivity|].
  now rewrite IH.
Qed.

Lemma mapM_exists {A B : Type} (f : A -> result B) (P : B -> Prop)
  (l : list A) :
  (forall a, In a l -> exists b, f a = Ok b /\ P b) ->
  exists r, mapM f l = Ok r /\ length r = length l /\ Forall P r.
Proof.
  induction l as [|a l IH]; intros H; cbn [mapM].
  - exists []. auto.
  - destruct (H a (or_introl eq_refl)) as (b & -> & Hb).
    destruct IH as (r & -> & Hlen & Hall); [intros; apply H; now right|].
    cbn [bind]. exists (b :: r). cbn. auto.
Qed.

Lemma assert_variables_inv (vs : list string) :
  assert_variables vs = Ok tt -> variable_names vs.
Proof.
  unfold variable_names.
  induction vs as [|v vs IH]; cbn [assert_variables]; [constructor|].
  destruct (is_variable v) as [[|]|] eqn:Hv; cbn; try discriminate.
  intros H. constructor; auto.
Qed.

Lemma all_models_valid_names (vs : list string) :
  variable_names vs ->
  exists models,
    all_models vs = Ok models
    /\ length models = 2 ^ length vs
    /\ Forall (fun m => is_model m = Ok true
                        /\ forall x, In x (keys m) <-> In x vs) models.
Proof.
  intros Hvs. unfold all_models.
  rewrite assert_variables_ok by assumption. cbn [bind].
  destruct (mapM_exists
              (fun assignment => fill_dict (enumerate vs) assignment [])
              (fun m => is_model m = Ok true
                        /\ forall x, In x (keys m) <-> In x vs)
              (product [false; true] (length vs)))
    as (r & Hr & Hlen & Hall).
  - intros a Ha. rewrite product_binary_digits in Ha.
    apply in_map_iff in Ha as (i & <- & _).
    destruct (fill_dict_keys (enumerate vs)
                (binary_digits (length vs) i) [])
      as (m & Hm & Hkeys).
    { intros j v Hj. rewrite length_binary_digits.
      now apply enumerate_range in Hj. }
    exists m. split; [exact Hm|].
    assert (Hk : forall x, In x (keys m) <-> In x vs).
    { intros x. rewrite Hkeys, map_snd_enumerate. cbn. intuition. }
    split; [|exact Hk].
    apply is_model_keys_ok. unfold variable_names in *.
    rewrite Forall_forall in *. intros x Hx. apply Hvs. now apply Hk.
  - exists r. split; [exact Hr|]. split; [|exact Hall].
    now rewrite Hlen, product_binary_digits, length_map, length_seq.
Qed.

(** X13. Whatever the list of valid variable names, with or without
    repetitions, [all_models] returns [2^n] models for a list of length [n];
    every one of them is a valid model whose keys are the names of the
    list. *)
Theorem all_models_total (vs : list string) :
  variable_names vs ->
  exists models,
    all_models vs = Ok models
    /\ length models = 2 ^ length vs
    /\ Forall (fun m => is_model m = Ok true
                        /\ forall x, In x (keys m) <-> In x vs) models.
Proof. apply all_models_valid_names. Qed.

Lemma all_models_total_witness :
  exists models,
    all_models ["q"; "p"; "q"] = Ok models
    /\ length models = 2 ^ length ["q"; "p"; "q"]
    /\ Forall (fun m => is_model m = Ok true
                        /\ forall x, In x (keys m) <-> In x ["q"; "p"; "q"])
              models.
Proof.
  apply all_models_total. repeat constructor.
Defined.

(** X14. [all_models] returns normally exactly when every name of the list
    passes [is_variable]; otherwise it raises. *)
Theorem all_models_needs_variables (vs : list string) :
  (exists models, all_models vs = Ok models) <-> variable_names vs.
Proof.
  split.
  - intros (models & H). unfold all_models in H.
    destruct (assert_variables vs) as [[]|] eqn:Ha; [|discriminate].
    now apply assert_variables_inv.
  - intros H. destruct (all_models_valid_names vs H) as (models & Hm & _).
    eauto.
Qed.

(** * Tautologies, contradictions and satisfiability *)

Lemma product_complete (n : nat) :
  forall a : list bool, length a = n -> In a (product [false; true] n).
Proof.
  induction n as [|n IH]; intros a Ha.
  - destruct a; [now left | discriminate].
  - destruct (exists_last (l := a)) as (x & y & ->);
      [intros ->; discriminate|].
    rewrite length_app in Ha. cbn in Ha.
    rewrite product_S. apply in_flat_map. exists x.
    split; [apply IH; lia|]. destruct y; cbn; auto.
Qed.

Lemma dict_get_combine_map (g : string -> bool) (order : list string)
  (v : string) :
  In v order -> dict_get v (combine order (map g order)) = PyBool (g v).
Proof.
  induction order as [|k order IH]; cbn; [contradiction|].
  destruct (String.eqb_spec v k) as [-> | Hne]; [reflexivity|].
  intros [-> | H]; [congruence | now apply IH].
Qed.

Lemma is_tautology_loop_forallb (f : Formula) (models : list Model) :
  well_formed f = true ->
  (forall m, In m models -> is_model m = Ok true /\ covers m f = true) ->
  is_tautology_loop f models = Ok (forallb (truth_value f) models).
Proof.
  intros Hwf. induction models as [|m models IH]; intros Hall;
    cbn [is_tautology_loop forallb]; [reflexivity|].
  destruct (Hall m (or_introl eq_refl)) as [Hm Hc].
  rewrite (evaluate_truth_value f m Hwf Hm Hc). cbn [bind truthy].
  destruct (truth_value f m); cbn [negb andb]; [|reflexivity].
  apply IH. intros m' Hm'. apply Hall. now right.
Qed.

Lemma forallb_false_exists {A : Type} (p : A -> bool) (l : list A) :
  forallb p l = false -> exists x, In x l /\ p x = false.
Proof.
  induction l as [|x l IH]; cbn; [discriminate|].
  destruct (p x) eqn:Hx; cbn.
  - intros H. destruct (IH H) as (y & Hy & Hp). eauto.
  - eauto.
Qed.

Section Analysis.

Variable set_order : list string -> list string.
Hypothesis set_order_ok : iteration_order set_order.

Variable f : Formula.
Hypothesis f_wf : well_formed f = true.

Lemma set_order_names (fv : list string) :
  Formula_variables f = Ok fv ->
  NoDup (set_order fv) /\ variable_names (set_order fv)
  /\ incl fv (set_order fv).
Proof.
  intros Hfv. destruct (set_order_ok fv) as [Hnd Hin].
  pose proof (Formula_variables_names f fv f_wf Hfv) as Hnames.
  split; [exact Hnd|]. split.
  - unfold variable_names in *. rewrite Forall_forall in *.
    intros x Hx. apply Hnames. now apply Hin.
  - intros x Hx. now apply Hin.
Qed.

Lemma tried_models_valid (fv : list string) (m : Model) :
  Formula_variables f = Ok fv -> In m (tried_models set_order fv) ->
  is_model m = Ok true /\ covers m f = true.
Proof.
  intros Hfv Hm. destruct (set_order_names fv Hfv) as (Hnd & Hnames & Hincl).
  unfold tried_models in Hm. apply in_map_iff in Hm as (a & <- & Ha).
  apply in_map_iff in Ha as (i & <- & _).
  split.
  - apply is_model_combine; [assumption | apply length_binary_digits].
  - apply covers_combine with (fv := fv); auto using length_binary_digits.
Qed.

(** Every model that covers the formula has the same value as one of the
    models tried. *)
Lemma tried_models_complete (fv : list string) (m : Model) :
  Formula_variables f = Ok fv ->
  is_model m = Ok true -> covers m f = true ->
  exists m', In m' (tried_models set_order fv) /\ truth_value f m' = truth_value f m.
Proof.
  intros Hfv Hm Hc. destruct (set_order_names fv Hfv) as (Hnd & Hnames & Hincl).
  destruct (set_order_ok fv) as [_ Hin].
  set (g := fun v => truthy (dict_get v m)).
  exists (combine (set_order fv) (map g (set_order fv))). split.
  - unfold tried_models. apply in_map. rewrite <- product_binary_digits.
    apply product_complete. apply length_map.
  - apply truth_value_agree with (fv := fv); auto.
    intros x Hx. rewrite dict_get_combine_map by now apply Hincl.
    unfold covers in Hc. rewrite Hfv in Hc. apply issubset_In in Hc.
    apply Hc, existsb_eqb_In, dict_get_key in Hx as (b & Hb).
    unfold g. now rewrite Hb.
Qed.

Lemma is_tautology_value (fv : list string) :
  Formula_variables f = Ok fv ->
  is_tautology set_order f = Ok (forallb (truth_value f) (tried_models set_order fv)).
Proof.
  intros Hfv. destruct (set_order_names fv Hfv) as (Hnd & Hnames & Hincl).
  unfold is_tautology. rewrite Hfv. cbn [bind].
  rewrite all_models_distinct by assumption. cbn [bind].
  rewrite <- map_map with (g := combine (set_order fv)).
  apply is_tautology_loop_forallb; [exact f_wf|].
  intros m Hm. now apply tried_models_valid with (fv := fv).
Qed.

Lemma is_tautology_semantics :
  exists b,
    is_tautology set_order f = Ok b
    /\ (b = true <->
        forall m, is_model m = Ok true -> covers m f = true ->
                  truth_value f m = true).
Proof.
  destruct (Formula_variables_total f f_wf) as (fv & Hfv).
  rewrite (is_tautology_value fv Hfv). eexists. split; [reflexivity|].
  rewrite forallb_forall. split.
  - intros H m Hm Hc.
    destruct (tried_models_complete fv m Hfv Hm Hc) as (m' & Hin & <-). auto.
  - intros H m Hm.
    destruct (tried_models_valid fv m Hfv Hm). auto.
Qed.

End Analysis.

Lemma nodup_iteration_order : iteration_order (nodup string_dec).
Proof.
  intros l. split; [apply NoDup_nodup | intros x; apply nodup_In].
Qed.

Lemma evaluate_true_iff (f : Formula) (m : Model) (b : bool) :
  well_formed f = true -> is_model m = Ok true -> covers m f = true ->
  evaluate f m = Ok (PyBool b) <-> truth_value f m = b.
Proof.
  intros Hwf Hm Hc. rewrite evaluate_truth_value by assumption.
  split; [now intros [= ->] | now intros ->].
Qed.

(** X15. [is_tautology] returns [True] exactly when the formula evaluates to
    [True] in every valid model that covers it, whatever the order in which
    the set of its variables is iterated. *)
Theorem is_tautology_correct (set_order : list string -> list string)
  (f : Formula) :
  iteration_order set_order -> well_formed f = true ->
  exists b,
    is_tautology set_order f = Ok b
    /\ (b = true <->
        forall m, is_model m = Ok true -> covers m f = true ->
                  evaluate f m = Ok (PyBool true)).
Proof.
  intros Hso Hwf.
  destruct (is_tautology_semantics set_order Hso f Hwf) as (b & Hb & Hiff).
  exists b. split; [exact Hb|]. rewrite Hiff.
  split; intros H m Hm Hc; apply (evaluate_true_iff f m true); auto.
Qed.

Lemma is_tautology_correct_witness :
  exists b,
    is_tautology (nodup string_dec) (Binary "|" (Atom "p") (Unary "~" (Atom "p")))
    = Ok b
    /\ (b = true <->
        forall m, is_model m = Ok true ->
                  covers m (Binary "|" (Atom "p") (Unary "~" (Atom "p"))) = true ->
                  evaluate (Binary "|" (Atom "p") (Unary "~" (Atom "p"))) m
                  = Ok (PyBool true)).
Proof.
  apply is_tautology_correct; [apply nodup_iteration_order | reflexivity].
Defined.

(** X16. [is_contradiction] returns [True] exactly when the formula evaluates
    to [False] in every valid model that covers it. *)
Theorem is_contradiction_correct (set_order : list string -> list string)
  (f : Formula) :
  iteration_order set_order -> well_formed f = true ->
  exists b,
    is_contradiction set_order f = Ok b
    /\ (b = true <->
        forall m, is_model m = Ok true -> covers m f = true ->
                  evaluate f m = Ok (PyBool false)).
Proof.
  intros Hso Hwf. unfold is_contradiction.
  rewrite Formula_init_unary. cbn [bind].
  destruct (is_tautology_semantics set_order Hso (Unary "~" f) Hwf)
    as (b & Hb & Hiff).
  exists b. split; [exact Hb|]. rewrite Hiff.
  split; intros H m Hm Hc.
  - apply (evaluate_true_iff f m false); auto.
    specialize (H m Hm Hc). cbn [truth_value] in H.
    now apply negb_true_iff in H.
  - cbn [truth_value]. apply negb_true_iff.
    apply (evaluate_true_iff f m false); auto.
Qed.

Lemma is_contradiction_correct_witness :
  exists b,
    is_contradiction (nodup string_dec) (Binary "&" (Atom "p") (Unary "~" (Atom "p")))
    = Ok b
    /\ (b = true <->
        forall m, is_model m = Ok true ->
                  covers m (Binary "&" (Atom "p") (Unary "~" (Atom "p"))) = true ->
                  evaluate (Binary "&" (Atom "p") (Unary "~" (Atom "p"))) m
                  = Ok (PyBool false)).
Proof.
  apply is_contradiction_correct; [apply nodup_iteration_order | reflexivity].
Defined.

(** X17. [is_satisfiable] returns [True] exactly when some valid model that
    covers the formula makes it evaluate to [True]. *)
Theorem is_satisfiable_correct (set_order : list string -> list string)
  (f : Formula) :
  iteration_order set_order -> well_formed f = true ->
  exists b,
    is_satisfiable set_order f = Ok b
    /\ (b = true <->
        exists m, is_model m = Ok true /\ covers m f = true
                  /\ evaluate f m = Ok (PyBool true)).
Proof.
  intros Hso Hwf. unfold is_satisfiable, is_contradiction.
  rewrite Formula_init_unary. cbn [bind].
  destruct (Formula_variables_total f Hwf) as (fv & Hfv).
  assert (Hwf' : well_formed (Unary "~" f) = true) by exact Hwf.
  rewrite (is_tautology_value set_order Hso (Unary "~" f) Hwf' fv Hfv).
  cbn [bind]. eexists. split; [reflexivity|].
  rewrite negb_true_iff. split.
  - intros H. apply forallb_false_exists in H as (m & Hin & Hm).
    destruct (tried_models_valid set_order Hso (Unary "~" f) Hwf' fv m Hfv Hin)
      as [Hmod Hcov].
    exists m. rewrite covers_unary in Hcov. repeat split; auto.
    apply (evaluate_true_iff f m true); auto.
    cbn [truth_value] in Hm. now apply negb_false_iff in Hm.
  - intros (m & Hm & Hc & He).
    apply (evaluate_true_iff f m true) in He; auto.
    apply not_true_is_false. intros Hall.
    destruct (tried_models_complete set_order Hso (Unary "~" f) Hwf' fv m
                Hfv Hm Hc) as (m' & Hin & Htv).
    rewrite forallb_forall in Hall. specialize (Hall m' Hin).
    rewrite Htv in Hall. cbn [truth_value] in Hall. rewrite He in Hall.
    discriminate.
Qed.

Lemma is_satisfiable_correct_witness :
  exists b,
    is_satisfiable (nodup string_dec) (Binary "&" (Atom "p") (Unary "~" (Atom "q")))
    = Ok b
    /\ (b = true <->
        exists m, is_model m = Ok true
                  /\ covers m (Binary "&" (Atom "p") (Unary "~" (Atom "q"))) = true
                  /\ evaluate (Binary "&" (Atom "p") (Unary "~" (Atom "q"))) m
                     = Ok (PyBool true)).
Proof.
  apply is_satisfiable_correct; [apply nodup_iteration_order | reflexivity].
Defined.

(** * Further properties of the synthesis *)

Lemma is_model_keys_inv (ks : list string) :
  is_model_keys ks = Ok true -> variable_names ks.
Proof.
  unfold variable_names.
  induction ks as [|k ks IH]; cbn [is_model_keys]; [constructor|].
  destruct (is_variable k) as [[|]|] eqn:Hk; cbn; try discriminate.
  intros H. constructor; auto.
Qed.

Lemma literal_is_literal (v : string) (model : Model) :
  is_variable v = Ok true -> is_literal (literal v model) = true.
Proof.
  intros Hv. unfold literal.
  destruct (negb (truthy (dict_get v model))); cbn; now rewrite Hv.
Qed.

Lemma literal_is_not_binary (v : string) (model : Model) :
  is_conjunctive_clause (literal v model) = is_literal (literal v model).
Proof. unfold literal. now destruct (negb (truthy (dict_get v model))). Qed.

Lemma synthesize_for_model_helper_clause (vars : list string) (model : Model) :
  forall g, variable_names vars ->
  _synthesize_for_model_helper vars model = Ok g ->
  is_conjunctive_clause g = true.
Proof.
  induction vars as [|v0 rest IH]; intros g Hvs; [discriminate|].
  inversion Hvs as [|? ? Hv0 Hrest]; subst.
  cbn [_synthesize_for_model_helper].
  rewrite (Formula_init_variable _ Hv0). cbn [bind].
  assert (Hlit : (if negb (truthy (dict_get v0 model))
                  then Formula_init "~" (Some (Atom v0)) None
                  else Ok (Atom v0)) = Ok (literal v0 model)).
  { unfold literal. now destruct (negb (truthy (dict_get v0 model))). }
  rewrite Hlit. cbn [bind].
  destruct (Nat.eqb (length (v0 :: rest)) 1).
  - intros [= <-]. rewrite literal_is_not_binary.
    now apply literal_is_literal.
  - destruct (_synthesize_for_model_helper rest model) as [tail|] eqn:Ht;
      [|discriminate].
    cbn [bind]. rewrite Formula_init_binary by reflexivity. intros [= <-].
    cbn [is_conjunctive_clause]. change ("&" =? "&") with true.
    rewrite literal_is_literal by assumption. now apply IH.
Qed.

Lemma clause_is_dnf (g : Formula) :
  is_conjunctive_clause g = true -> is_dnf g = true.
Proof.
  destruct g as [r | r a | r a b]; cbn [is_dnf]; auto.
  intros H. cbn [is_conjunctive_clause] in H.
  apply andb_true_iff in H as [H Hb]. apply andb_true_iff in H as [Hr Ha].
  apply String.eqb_eq in Hr. subst r. change ("&" =? "|") with false.
  cbn [is_conjunctive_clause]. now rewrite Ha, Hb.
Qed.

Lemma synthesize_for_model_ok (m : Model) :
  is_model m = Ok true -> keys m <> [] ->
  exists g,
    _synthesize_for_model m = Ok g
    /\ is_conjunctive_clause g = true
    /\ well_formed g = true
    /\ (exists fv, Formula_variables g = Ok fv /\ incl fv (keys m))
    /\ forall m',
         truth_value g m'
         = forallb (fun v => Bool.eqb (truthy (dict_get v m'))
                                     (truthy (dict_get v m))) (keys m).
Proof.
  intros Hm Hne. pose proof (is_model_keys_inv _ Hm) as Hnames.
  unfold _synthesize_for_model. rewrite Hm. cbn [bind assert].
  rewrite (nonempty_ltb _ Hne). cbn [bind].
  destruct (synthesize_for_model_helper_spec (keys m) m Hne Hnames)
    as (g & Hg & Hwf & Hfv & Htv).
  exists g. repeat split; auto.
  now apply (synthesize_for_model_helper_clause (keys m) m).
Qed.

(** X18. For a valid model with at least one key, [_synthesize_for_model]
    returns a conjunctive clause of literals that evaluates to [True] in
    exactly the models that give every key of the model the same value as the
    model does. *)
Theorem synthesize_for_model_correct (m : Model) :
  is_model m = Ok true -> keys m <> [] ->
  exists g,
    _synthesize_for_model m = Ok g
    /\ is_conjunctive_clause g = true
    /\ forall m', is_model m' = Ok true -> incl (keys m) (keys m') ->
       exists b, evaluate g m' = Ok (PyBool b)
                 /\ (b = true <-> agree_on (keys m) m' m).
Proof.
  intros Hm Hne.
  destruct (synthesize_for_model_ok m Hm Hne)
    as (g & Hg & Hcl & Hwf & (fv & Hfv & Hincl) & Htv).
  exists g. split; [exact Hg|]. split; [exact Hcl|].
  intros m' Hm' Hkeys.
  assert (Hc : covers m' g = true).
  { unfold covers. rewrite Hfv. apply issubset_In.
    intros x Hx. auto. }
  rewrite (evaluate_truth_value g m' Hwf Hm' Hc).
  eexists. split; [reflexivity|]. rewrite Htv, forallb_forall.
  split; intros H x Hx; specialize (H x Hx).
  - assert (Hx' : In x (keys m')) by auto.
    apply existsb_eqb_In, dict_get_key in Hx as (b1 & Hb1).
    apply existsb_eqb_In, dict_get_key in Hx' as (b2 & Hb2).
    rewrite Hb1, Hb2 in *. cbn [truthy] in H.
    apply Bool.eqb_prop in H. now subst.
  - rewrite H. apply Bool.eqb_reflx.
Qed.

Lemma synthesize_for_model_correct_witness :
  exists g,
    _synthesize_for_model [("p", true); ("q", false)] = Ok g
    /\ is_conjunctive_clause g = true
    /\ forall m', is_model m' = Ok true ->
       incl (keys [("p", true); ("q", false)]) (keys m') ->
       exists b, evaluate g m' = Ok (PyBool b)
                 /\ (b = true <->
                     agree_on (keys [("p", true); ("q", false)]) m'
                              [("p", true); ("q", false)]).
Proof.
  apply synthesize_for_model_correct; [reflexivity | discriminate].
Defined.

Section SynthesizeShape.

Variable vs : list string.

Lemma synthesize_step (m : Model) (cur : option Formula) :
  usable vs m -> dnf_over vs cur ->
  exists g next,
    _synthesize_for_model m = Ok g
    /\ (match cur with
        | None => Ok g
        | Some _ => Formula_init "|" cur (Some g)
        end) = Ok next
    /\ dnf_over vs (Some next).
Proof.
  intros (Hm & Hne & Hkeys) Hcur.
  destruct (synthesize_for_model_ok m Hm Hne)
    as (g & Hg & Hcl & Hwf & (fv & Hfv & Hincl) & _).
  assert (Hg_over : incl fv vs) by (intros x Hx; auto).
  destruct cur as [f|].
  - destruct Hcur as (Hdnf & Hwff & (fvf & Hfvf & Hinf)).
    exists g, (Binary "|" f g). split; [exact Hg|].
    split; [now rewrite Formula_init_binary|].
    repeat split.
    + cbn [is_dnf]. change ("|" =? "|") with true. cbv iota.
      now rewrite Hdnf, Hcl.
    + cbn [well_formed]. now rewrite Hwff, Hwf.
    + exists (fvf ++ fv). rewrite Formula_variables_binary by reflexivity.
      rewrite Hfvf, Hfv. split; [reflexivity | now apply incl_app].
  - exists g, g. repeat split; auto using clause_is_dnf. eauto.
Qed.

Lemma synthesize_loop_unfold (i : nat) (m : Model) (ims : list (nat * Model))
  (values : list bool) (cur : option Formula) (t : bool) :
  usable vs m -> dnf_over vs cur -> nth_error values i = Some t ->
  exists cur',
    dnf_over vs cur'
    /\ synthesize_loop ((i, m) :: ims) values (is_first_of cur) cur
       = synthesize_loop ims values (is_first_of cur') cur'.
Proof.
  intros Hm Hcur Ht. cbn [synthesize_loop]. rewrite Ht.
  destruct t; [|exists cur; auto].
  destruct (synthesize_step m cur Hm Hcur) as (g & next & Hg & Hnext & Hover).
  exists (Some next). split; [exact Hover|].
  destruct cur as [f|]; cbn [is_first_of]; rewrite Hg; cbn [bind].
  - now rewrite Hnext.
  - now injection Hnext as ->.
Qed.

Lemma synthesize_loop_enough (models : list Model) :
  forall (k : nat) (values : list bool) (cur : option Formula),
  Forall (usable vs) models -> dnf_over vs cur ->
  k + length models <= length values ->
  exists cur',
    synthesize_loop (combine (seq k (length models)) models) values
                    (is_first_of cur) cur = Ok cur'
    /\ dnf_over vs cur'.
Proof.
  induction models as [|m models IH]; intros k values cur Hall Hcur Hlen.
  - exists cur. auto.
  - inversion Hall as [|? ? Hm Hall']; subst. cbn [length seq combine] in *.
    destruct (nth_error values k) as [t|] eqn:Ht.
    2:{ apply nth_error_None in Ht. lia. }
    destruct (synthesize_loop_unfold k m
                (combine (seq (S k) (length models)) models)
                values cur t Hm Hcur Ht) as (cur1 & Hcur1 & ->).
    apply IH; auto. lia.
Qed.

Lemma synthesize_loop_short (models : list Model) :
  forall (k : nat) (values : list bool) (cur : option Formula),
  Forall (usable vs) models -> dnf_over vs cur ->
  k <= length values -> length values < k + length models ->
  synthesize_loop (combine (seq k (length models)) models) values
                  (is_first_of cur) cur = Raise IndexError.
Proof.
  induction models as [|m models IH]; intros k values cur Hall Hcur Hk Hlen.
  - cbn in Hlen. lia.
  - inversion Hall as [|? ? Hm Hall']; subst. cbn [length seq combine] in *.
    destruct (nth_error values k) as [t|] eqn:Ht.
    + assert (k < length values) by (apply nth_error_Some; congruence).
      destruct (synthesize_loop_unfold k m
                  (combine (seq (S k) (length models)) models)
                  values cur t Hm Hcur Ht) as (cur1 & Hcur1 & ->).
      apply IH; auto; lia.
    + cbn [synthesize_loop]. now rewrite Ht.
Qed.

Hypothesis vs_nonempty : vs <> [].
Hypothesis vs_names : variable_names vs.

Lemma all_models_usable :
  exists models,
    all_models vs = Ok models
    /\ length models = 2 ^ length vs
    /\ Forall (usable vs) models.
Proof.
  destruct (all_models_valid_names vs vs_names) as (models & Hm & Hlen & Hall).
  exists models. repeat split; auto.
  apply Forall_forall. intros m Hin. rewrite Forall_forall in Hall.
  destruct (Hall m Hin) as [Hmod Hkeys]. split; [exact Hmod|]. split.
  - destruct (nonempty_head vs vs_nonempty) as (v0 & _ & Hv0).
    apply Hkeys in Hv0. intros E. rewrite E in Hv0. contradiction.
  - intros x Hx. now apply Hkeys.
Qed.

Lemma synthesize_dnf_over (values : list bool) :
  2 ^ length vs <= length values ->
  exists f, synthesize vs values = Ok f /\ dnf_over vs (Some f).
Proof.
  intros Hlen. destruct all_models_usable as (models & Hm & Hl & Hall).
  unfold synthesize. rewrite (nonempty_ltb vs vs_nonempty). cbn [assert bind].
  rewrite Hm. cbn [bind]. unfold enumerate.
  destruct (synthesize_loop_enough models 0 values None Hall I)
    as (cur' & Hloop & Hover); [cbn; lia|].
  cbn [is_first_of] in Hloop.
  destruct cur' as [f|].
  - exists f. rewrite Hloop. cbn [bind]. auto.
  - destruct (nonempty_head vs vs_nonempty) as (v0 & Hhd & Hin).
    assert (Hv0 : is_variable v0 = Ok true).
    { unfold variable_names in vs_names.
      rewrite Forall_forall in vs_names. now apply vs_names. }
    exists (Binary "&" (Atom v0) (Unary "~" (Atom v0))).
    rewrite Hloop. cbn [bind]. rewrite Hhd.
    rewrite (Formula_init_variable _ Hv0). cbn [bind].
    rewrite Formula_init_unary. cbn [bind].
    rewrite Formula_init_binary by reflexivity.
    split; [reflexivity|]. repeat split.
    + cbn. now rewrite Hv0.
    + cbn [well_formed]. rewrite Hv0. reflexivity.
    + exists ([v0] ++ [v0]).
      rewrite Formula_variables_binary, Formula_variables_unary by reflexivity.
      rewrite (Formula_variables_atom v0 true) by auto. split; [reflexivity|].
      intros x [<- | [<- | []]]; assumption.
Qed.

Lemma synthesize_short_table (values : list bool) :
  length values < 2 ^ length vs ->
  synthesize vs values = Raise IndexError.
Proof.
  intros Hlen. destruct all_models_usable as (models & Hm & Hl & Hall).
  unfold synthesize. rewrite (nonempty_ltb vs vs_nonempty). cbn [assert bind].
  rewrite Hm. cbn [bind]. unfold enumerate.
  pose proof (synthesize_loop_short models 0 values None Hall I) as Hloop.
  cbn [is_first_of] in Hloop. rewrite Hloop; [reflexivity | |]; cbn; lia.
Qed.

End SynthesizeShape.

(** X19. For a non-empty list of valid variable names, repeated or not, and
    a table with at least [2^n] entries, [synthesize] returns a well-formed
    formula in disjunctive normal form, clauses of literals joined by [|],
    whose variables are among the given names. *)
Theorem synthesize_dnf (vs : list string) (values : list bool) :
  vs <> [] -> variable_names vs -> 2 ^ length vs <= length values ->
  exists f fv,
    synthesize vs values = Ok f
    /\ is_dnf f = true
    /\ well_formed f = true
    /\ Formula_variables f = Ok fv /\ incl fv vs.
Proof.
  intros Hne Hnames Hlen.
  destruct (synthesize_dnf_over vs Hne Hnames values Hlen)
    as (f & Hf & Hdnf & Hwf & (fv & Hfv & Hincl)).
  exists f, fv. auto.
Qed.

Lemma synthesize_dnf_witness :
  exists f fv,
    synthesize ["p"; "q"] [false; true; true; false] = Ok f
    /\ is_dnf f = true
    /\ well_formed f = true
    /\ Formula_variables f = Ok fv /\ incl fv ["p"; "q"].
Proof.
  apply synthesize_dnf; [discriminate | repeat constructor | cbn; lia].
Defined.

(** X20. A truth table with fewer than [2^n] entries makes [synthesize]
    raise [IndexError], for every non-empty list of valid variable names. *)
Theorem synthesize_table_too_short (vs : list string) (values : list bool) :
  vs <> [] -> variable_names vs -> length values < 2 ^ length vs ->
  synthesize vs values = Raise IndexError.
Proof.
  intros Hne Hnames Hlen. now apply synthesize_short_table.
Qed.

Lemma synthesize_table_too_short_witness :
  synthesize ["p"; "q"] [true; false; true] = Raise IndexError.
Proof.
  apply synthesize_table_too_short;
    [discriminate | repeat constructor | cbn; lia].
Defined.

Lemma mapM_length {A B : Type} (f : A -> result B) (l : list A) :
  forall r, mapM f l = Ok r -> length r = length l.
Proof.
  induction l as [|a l IH]; intros r; cbn [mapM].
  - now intros [= <-].
  - destruct (f a) as [b|]; cbn [bind]; [|discriminate].
    destruct (mapM f l) as [bs|]; cbn [bind]; [|discriminate].
    intros [= <-]. cbn. now rewrite (IH bs eq_refl).
Qed.

Lemma all_models_length (vs : list string) (models : list Model) :
  all_models vs = Ok models -> length models = 2 ^ length vs.
Proof.
  unfold all_models. destruct (assert_variables vs); cbn [bind]; [|discriminate].
  intros H. apply mapM_length in H.
  now rewrite H, product_binary_digits, length_map, length_seq.
Qed.

Lemma synthesize_loop_extra (ims : list (nat * Model)) (extra : list bool) :
  forall (values : list bool) (is_first : bool) (cur : option Formula),
  (forall i m, In (i, m) ims -> i < length values) ->
  synthesize_loop ims (values ++ extra) is_first cur
  = synthesize_loop ims values is_first cur.
Proof.
  induction ims as [|[i m] ims IH]; intros values is_first cur Hrange;
    cbn [synthesize_loop]; [reflexivity|].
  rewrite nth_error_app1 by (apply (Hrange i m); now left).
  assert (Hrange' : forall j m', In (j, m') ims -> j < length values).
  { intros j m' H. apply (Hrange j m'). now right. }
  destruct (nth_error values i) as [[|]|]; [|now apply IH | reflexivity].
  destruct is_first; destruct (_synthesize_for_model m) as [g|]; cbn [bind];
    try reflexivity; [now apply IH|].
  destruct (Formula_init "|" cur (Some g)); cbn [bind];
    [now apply IH | reflexivity].
Qed.

(** X21. [synthesize] reads the first [2^n] entries of the table only:
    entries beyond them do not change its result, error or formula. *)
Theorem synthesize_ignores_extra (vs : list string) (values extra : list bool) :
  2 ^ length vs <= length values ->
  synthesize vs (values ++ extra) = synthesize vs values.
Proof.
  intros Hlen. unfold synthesize.
  destruct (assert (Nat.ltb 0 (length vs))); cbn [bind]; [|reflexivity].
  destruct (all_models vs) as [models|] eqn:Hm; cbn [bind]; [|reflexivity].
  apply all_models_length in Hm.
  rewrite synthesize_loop_extra; [reflexivity|].
  intros i m Hin. apply enumerate_range in Hin. lia.
Qed.

Lemma synthesize_ignores_extra_witness :
  synthesize ["p"] ([true; false] ++ [true; true]) = synthesize ["p"] [true; false].
Proof.
  apply synthesize_ignores_extra. cbn. lia.
Defined.

(** X22. [is_model] returns [True] exactly when every key of the dictionary
    passes [is_variable]. *)
Theorem is_model_exact (m : Model) :
  is_model m = Ok true <-> variable_names (keys m).
Proof.
  split; [apply is_model_keys_inv | apply is_model_keys_ok].
Qed.

(** X23. The constructor keeps the class invariant: a formula that
    [__init__] builds from operands satisfying the invariant satisfies it,
    with the given root and exactly the operands the root's class takes. *)
Theorem Formula_init_keeps_invariant (r : string) (a b : option Formula)
  (f : Formula) :
  Formula_init r a b = Ok f ->
  (forall g, a = Some g -> well_formed g = true) ->
  (forall h, b = Some h -> well_formed h = true) ->
  well_formed f = true /\ root f = r
  /\ match f with
     | Atom _ => a = None /\ b = None
     | Unary _ g => a = Some g /\ b = None
     | Binary _ g h => a = Some g /\ b = Some h
     end.
Proof.
  intros H Ha Hb.
  split; [now apply (Formula_init_preserves_well_formed r a b)|].
  pose proof (Formula_init_well_formed r a b f H) as Hshape.
  unfold Formula_init in H.
  destruct (is_variable r) as [v|]; cbn [bind] in H; [|discriminate].
  destruct (v || is_constant r).
  - destruct a, b; inversion H; subst. auto.
  - destruct (is_unary r).
    + destruct a, b; inversion H; subst. auto.
    + destruct (is_binary r); cbn [assert bind] in H; [|discriminate].
      destruct a, b; inversion H; subst. auto.
Qed.

Lemma Formula_init_keeps_invariant_witness :
  well_formed (Binary "->" (Atom "p") (Atom "F")) = true
  /\ root (Binary "->" (Atom "p") (Atom "F")) = "->"
  /\ (Some (Atom "p") = Some (Atom "p") /\ Some (Atom "F") = Some (Atom "F")).
Proof.
  apply (Formula_init_keeps_invariant "->" (Some (Atom "p")) (Some (Atom "F"))
           (Binary "->" (Atom "p") (Atom "F"))).
  - reflexivity.
  - intros g [= <-]. reflexivity.
  - intros h [= <-]. reflexivity.
Defined.


(** X25. [all_models] misses no model: for distinct variable names, every
    assignment of truth values to the names, in their order, is one of the
    models returned. *)
Theorem all_models_complete (vs : list string) (a : list bool) :
  NoDup vs -> variable_names vs -> length a = length vs ->
  exists models, all_models vs = Ok models /\ In (combine vs a) models.
Proof.
  intros Hnd Hnames Ha. eexists. split; [now apply all_models_distinct|].
  rewrite <- map_map with (g := combine vs). apply in_map.
  rewrite <- product_binary_digits. now apply product_complete.
Qed.

Lemma all_models_complete_witness :
  exists models,
    all_models ["x"; "y"; "z"] = Ok models
    /\ In (combine ["x"; "y"; "z"] [true; false; true]) models.
Proof.
  apply all_models_complete.
  - repeat constructor; cbn; intuition discriminate.
  - repeat constructor.
  - reflexivity.
Defined.
